(** * The histogram class of [boost/histogram/histogram.hpp]

    A shallow embedding of the class template [histogram<Axes, Storage>] and of
    the free operators declared next to it, together with the collaborators the
    header only uses through their interface (axes, storage cells and the
    helpers of [boost/histogram/detail]).

    Conventions.
    - [Axes] is an ordered sequence of axis objects: [list A].
    - [Storage] is a flat sequence of accumulator cells: [list C]; the cell at
      linear offset [o] is [s !! o].
    - [std::size_t] offsets and bin counts are unbounded [nat], [int] bin
      indices are [Z]: the header does no arithmetic on either, and the
      embedding does not model overflow of the bin count product.
    - [double] is Rocq's primitive binary64 [float].
    - A member function that mutates [*this] is a [method]: a function from
      the state before the call to an outcome and the state after it.  A C++
      exception does not roll anything back, so a throwing call hands back the
      state as it was at the [throw]. *)

From Stdlib Require Import ZArith Floats.
From stdpp Require Import base tactics option numbers list.

(** ** Exceptions and methods *)

(** [std::invalid_argument] and [std::out_of_range], the two exceptions the
    header throws.  The [static_assert] of line 43 is a condition on the
    [Axes] type at compile time and throws nothing. *)
Inductive exn : Type :=
  | InvalidArgument
  | OutOfRange.

#[global] Instance exn_eq_dec : EqDecision exn.
Proof. solve_decision. Defined.

Definition result (T : Type) : Type := (exn + T)%type.

Definition method (S T : Type) : Type := S → result T * S.

Definition ret {S T} (x : T) : method S T := λ s, (inr x, s).

Definition throw {S T} (e : exn) : method S T := λ s, (inl e, s).

Definition bind {S T U} (m : method S T) (k : T → method S U) : method S U :=
  λ s, match m s with
       | (inl e, s') => (inl e, s')
       | (inr x, s') => k x s'
       end.

Definition get {S} : method S S := λ s, (inr s, s).

Definition put {S} (s : S) : method S unit := λ _, (inr tt, s).

Declare Scope method_scope.
Delimit Scope method_scope with method.
Notation "'do' x <- m ; k" := (bind m (λ x, k))
  (at level 10, x name, m at level 100, k at level 200) : method_scope.

(** [auto r = ...; return r op= x;]: run a compound assignment on a local
    object and return the object; an exception propagates to the caller. *)
Definition returning {S} (m : method S unit) (r : S) : result S :=
  match m r with
  | (inl e, _) => inl e
  | (inr _, r') => inr r'
  end.

(** ** Collaborator interfaces *)

(** Axis capability: the total number of bins (ordinary and extra) and the
    bin a coordinate falls into. *)
Class Extent (A : Type) := total_bin_count : A → nat.
Class Index (V A : Type) := index : A → V → Z.

(** The axis interface promises at least one bin, and bin ids expressed in
    [[0, total_bin_count)]. *)
Class AxisContract (V A : Type) `{Extent A, Index V A} : Prop := {
  total_bin_count_pos (a : A) : 1 ≤ total_bin_count a;
  index_in_range (a : A) (v : V) : (0 ≤ index a v < Z.of_nat (total_bin_count a))%Z;
}.

(** The axis types' own equality, possibly between two axis types. *)
Class AxisEqual (A B : Type) := axis_equal : A → B → bool.

(** Equal axes have the same bin layout, in particular the same extent. *)
Class AxisEqualExtent (A B : Type) `{Extent A, Extent B, AxisEqual A B} : Prop :=
  axis_equal_extent (a : A) (b : B) :
    axis_equal a b = true → total_bin_count a = total_bin_count b.

(** The axes' own equality is an equivalence. *)
Class AxisEqualEquiv (A : Type) `{AxisEqual A A} : Prop := {
  axis_equal_refl (a : A) : axis_equal a a = true;
  axis_equal_sym (a b : A) : axis_equal a b = true → axis_equal b a = true;
  axis_equal_trans (a b c : A) :
    axis_equal a b = true → axis_equal b c = true → axis_equal a c = true;
}.

(** Conversion into a related type: axes into the common axis type, cells
    into the common storage's cell type. *)
Class Convert (X Y : Type) := convert : X → Y.

#[global] Instance convert_id {X} : Convert X X | 100 := λ x, x.

(** A converted axis keeps its bin layout. *)
Class ConvertExtent (A B : Type) `{Extent A, Extent B, Convert A B} : Prop :=
  convert_extent (a : A) : total_bin_count (convert a) = total_bin_count a.

(** The conversion into the common axes type is lossless: comparing against
    an axis gives the same answer as comparing against its conversion. *)
Class AxisEqualConvert (B AC : Type)
    `{AxisEqual AC B, AxisEqual AC AC, Convert B AC} : Prop :=
  axis_equal_convert (x : AC) (y : B) : axis_equal x y = axis_equal x (convert y).

#[global] Instance axis_equal_convert_id {A} `{AxisEqual A A} :
  AxisEqualConvert A A.
Proof. by intros x y. Qed.

(** Storage cells: the default-initialised cell and the four ways a fill can
    update a cell (plain, weighted, with a sample, with both). *)
Class Cell (W Smp C : Type) := {
  cell_default : C;
  cell_observe : C → C;
  cell_observe_weight : W → C → C;
  cell_observe_sample : Smp → C → C;
  cell_observe_weight_sample : W → Smp → C → C;
}.

(** Scaling a cell by a [double]. *)
Class CellScale (C : Type) := cell_scale : float → C → C.

(** [cell_a += cell_b] and [cell_a == cell_b], possibly across cell types. *)
Class CellAdd (C D : Type) := cell_add : C → D → C.
Class CellEqual (C D : Type) := cell_equal : C → D → bool.

(** Cells whose addition is exact: commutative and associative, as for
    integer counts. *)
Class CellAddExact (C : Type) `{CellAdd C C} : Prop := {
  cell_add_comm (x y : C) : cell_add x y = cell_add y x;
  cell_add_assoc (x y z : C) : cell_add (cell_add x y) z = cell_add x (cell_add y z);
}.

(** The conversion into the common cell type is lossless: accumulating a
    cell gives the same result as accumulating its conversion. *)
Class CellAddConvert (D CC : Type)
    `{CellAdd CC D, CellAdd CC CC, Convert D CC} : Prop :=
  cell_add_convert (x : CC) (y : D) : cell_add x y = cell_add x (convert y).

#[global] Instance cell_add_convert_id {C} `{CellAdd C C} : CellAddConvert C C.
Proof. by intros x y. Qed.

(** Every cell compares equal to itself. *)
Class CellEqualRefl (C : Type) `{CellEqual C C} : Prop :=
  cell_equal_refl (x : C) : cell_equal x x = true.

(** ** The histogram *)

Record histogram (A C : Type) : Type := Histogram {
  axes_ : list A;
  storage_ : list C;
}.
Arguments Histogram {A C} _ _.
Arguments axes_ {A C} _.
Arguments storage_ {A C} _.

(** ** Helpers of [boost/histogram/detail] and of the storage *)

Section detail.
Context {V A B C D W Smp : Type}.
Context `{Extent A, Index V A, AxisEqual A B, Convert A B}.
Context `{Cell W Smp C, CellScale C, CellAdd C D, CellEqual C D}.

(** Modelled from the spec: [detail::bincount] (detail/axes.hpp is not among
    the sources), the product over all axes of the total bin count. *)
Definition bincount (axes : list A) : nat :=
  foldr (λ a n, total_bin_count a * n) 1 axes.

(** Modelled from the spec: [detail::axes_equal] (detail/axes.hpp); same
    rank, and each corresponding pair of axes equal under the axes' own
    equality. *)
Fixpoint axes_equal (xs : list A) (ys : list B) : bool :=
  match xs, ys with
  | [], [] => true
  | x :: xs', y :: ys' => axis_equal x y && axes_equal xs' ys'
  | _, _ => false
  end.

(** Modelled from the spec: [detail::axes_assign] (detail/axes.hpp); the
    target becomes a converted copy of the source axes. *)
Definition axes_assign (src : list A) : list B := convert <$> src.

(** Modelled from the spec: the range test of the linearisation
    (detail/linearize.hpp is not among the sources); bin id [j] is valid for
    axis [a] when it lies in [[0, total_bin_count a)]. *)
Definition bin_in_range (a : A) (j : Z) : bool :=
  bool_decide (0 ≤ j < Z.of_nat (total_bin_count a))%Z.

(** A tuple of bin ids with one valid id per axis. *)
Definition bins_in_range (axes : list A) (ids : list Z) : Prop :=
  Forall2 (λ a j, (0 ≤ j < Z.of_nat (total_bin_count a))%Z) axes ids.

(** Modelled from the spec: the mixed-radix combination of detail/linearize.hpp,
    [offset = ((id_0) * radix_1 + id_1) * radix_2 + id_2 ...] with the
    axis' total bin count as radix; no offset when a bin id is out of
    range (or when the two sequences differ in length). *)
Fixpoint linearize (acc : nat) (axes : list A) (ids : list Z) : option nat :=
  match axes, ids with
  | [], [] => Some acc
  | a :: axes', j :: ids' =>
      if bin_in_range a j
      then linearize (acc * total_bin_count a + Z.to_nat j) axes' ids'
      else None
  | _, _ => None
  end.

(** Modelled from the spec: [detail::at] (detail/linearize.hpp); an arity
    mismatch throws [std::invalid_argument], otherwise the optional linear
    offset. *)
Definition detail_at (axes : list A) (ids : list Z) : result (option nat) :=
  if decide (length ids = length axes)
  then inr (linearize 0 axes ids)
  else inl InvalidArgument.

(** The decoding of a linear offset into bin ids, the inverse of
    [linearize]; the header never decodes, this is the function the
    bijectivity of the encoding is stated with. *)
Fixpoint delinearize (axes : list A) (o : nat) : list Z :=
  match axes with
  | [] => []
  | a :: axes' =>
      Z.of_nat (o / bincount axes') :: delinearize axes' (o mod bincount axes')
  end.

(** The arguments of a fill call after the weight and sample markers have
    been taken out of the argument list. *)
Record fill_args : Type := FillArgs {
  fill_weight : option W;
  fill_sample : option Smp;
  fill_coordinates : list V;
}.

(** Modelled from the spec: the cell operation a fill runs, by the
    annotations of the call. *)
Definition cell_update (args : fill_args) : C → C :=
  match fill_weight args, fill_sample args with
  | None, None => cell_observe
  | Some w, None => cell_observe_weight w
  | None, Some s => cell_observe_sample s
  | Some w, Some s => cell_observe_weight_sample w s
  end.

(** Modelled from the spec: [detail::fill] (detail/linearize.hpp); the arity
    check, the per-axis lookup in axis order, the linear combination and the
    update of the addressed cell.  An axis that keeps its contract never
    yields an invalid bin id; no cell is addressed if one does.  The
    coordinates are already of the axes' value type, one per axis: a call
    with an argument of a non-convertible type, and the flattened call for a
    single axis that takes a composite coordinate, are not expressed. *)
Definition detail_fill (axes : list A) (args : fill_args) : method (list C) unit :=
  λ storage,
    if decide (length (fill_coordinates args) = length axes)
    then match linearize 0 axes (zip_with index axes (fill_coordinates args)) with
         | Some o => (inr tt, alter (cell_update args) o storage)
         | None => (inr tt, storage)
         end
    else (inl InvalidArgument, storage).

(** Modelled from the spec: the members of the storage, a template
    parameter of the class, after the storage interface.  [reset(n)] resizes
    to [n] default-initialised cells. *)
Definition storage_reset (n : nat) : list C := replicate n cell_default.

(** Modelled from the spec: elementwise [+=] of the storage; every cell of
    the left storage accumulates the cell of the right storage at the same
    offset, and the left storage keeps its size (the interface asks for a
    right operand of the same shape). *)
Fixpoint storage_add (s : list C) (r : list D) : list C :=
  match s, r with
  | x :: s', y :: r' => cell_add x y :: storage_add s' r'
  | _, _ => s
  end.

(** Modelled from the spec: elementwise scaling of the storage by a
    [double]. *)
Definition storage_scale (x : float) (s : list C) : list C := cell_scale x <$> s.

(** Modelled from the spec: [==] of the storage; the same size and every
    pair of corresponding cells equal. *)
Fixpoint storage_equal (s : list C) (r : list D) : bool :=
  match s, r with
  | [], [] => true
  | x :: s', y :: r' => cell_equal x y && storage_equal s' r'
  | _, _ => false
  end.

(** Modelled from the spec: indexed cell access [storage[o]]; [o] is below
    the size whenever it comes from [linearize] on a histogram that
    satisfies its invariant. *)
Definition storage_get (s : list C) (o : nat) : C := default cell_default (s !! o).
End detail.

(** ** Members of [histogram<Axes, Storage>]

    The defaulted copy and move members (lines 54-57) have no definition of
    their own here: copying or moving a histogram is the identity on its
    value. *)

Section members.
Context {V A C W Smp : Type}.
Context `{Extent A, Index V A, Cell W Smp C, CellScale C}.

(** [histogram(A&& a, S&& s)], lines 83-87: the axes are taken over and the
    storage is reset to [detail::bincount(axes_)] cells, whatever it held.
    Nothing in these lines tests the axes at run time or throws:
    [static_assert(mp_size<Axes>::value > 0)], line 43, constrains the [Axes]
    type only, so a run-time axes sequence without axes is taken as it is. *)
Definition histogram_ctor (a : list A) (s : list C) : result (histogram A C) :=
  inr (Histogram a (storage_reset (bincount a))).


(** [histogram(A&& a)], lines 89-90: delegates with a default-constructed
    storage. *)
Definition histogram_ctor_axes (a : list A) : result (histogram A C) :=
  histogram_ctor a [].

(** [rank()], line 93, and [size()], line 96. *)
Definition rank (h : histogram A C) : nat := length (axes_ h).
Definition size (h : histogram A C) : nat := length (storage_ h).

(** [reset()], line 99: [storage_.reset(storage_.size())]. *)
Definition reset : method (histogram A C) unit :=
  λ h, (inr tt, Histogram (axes_ h) (storage_reset (length (storage_ h)))).

(** [operator()], lines 146-154: [detail::fill(storage_, axes_, t)]. *)
Definition fill (args : fill_args) : method (histogram A C) unit :=
  λ h, let '(r, s) := detail_fill (axes_ h) args (storage_ h) in
       (r, Histogram (axes_ h) s).

(** [operator*=], lines 167-170, and [operator/=], line 173. *)
Definition imul (x : float) : method (histogram A C) unit :=
  λ h, (inr tt, Histogram (axes_ h) (storage_scale x (storage_ h))).

Definition idiv (x : float) : method (histogram A C) unit :=
  imul (1 / x)%float.

(** [at], lines 197-229.  The call yields a reference to [storage_[*idx]]:
    [at_ref] is the offset the reference designates, [at_] reads through
    it and [at_write] updates the cell through it. *)
Definition at_ref (h : histogram A C) (ids : list Z) : result nat :=
  match detail_at (axes_ h) ids with
  | inl e => inl e
  | inr None => inl OutOfRange
  | inr (Some o) => inr o
  end.

Definition at_ (h : histogram A C) (ids : list Z) : result C :=
  match at_ref h ids with
  | inl e => inl e
  | inr o => inr (storage_get (storage_ h) o)
  end.

Definition at_write (ids : list Z) (f : C → C) : method (histogram A C) unit :=
  λ h, match at_ref h ids with
       | inl e => (inl e, h)
       | inr o => (inr tt, Histogram (axes_ h) (alter f o (storage_ h)))
       end.

(** The class invariant: at least one axis, and one cell per combination
    of bins. *)
Definition hist_inv (h : histogram A C) : Prop :=
  1 ≤ rank h ∧ size h = bincount (axes_ h).
End members.

Section cross_type_members.
Context {A B C D : Type}.

(** The converting constructors, lines 59-67: the storage is built from
    [rhs.storage_] and the axes are assigned from [rhs.axes_]. *)
Definition histogram_convert `{Convert A B, Convert C D}
    (rhs : histogram A C) : histogram B D :=
  Histogram (axes_assign (axes_ rhs)) (convert <$> storage_ rhs).

(** The converting assignments, lines 69-81. *)
Definition assign `{Convert A B, Convert C D}
    (rhs : histogram A C) : method (histogram B D) unit :=
  λ _, (inr tt, histogram_convert rhs).

(** [operator+=], lines 158-164. *)
Definition iadd `{AxisEqual A B, CellAdd C D}
    (rhs : histogram B D) : method (histogram A C) unit :=
  λ h, if negb (axes_equal (axes_ h) (axes_ rhs))
       then (inl InvalidArgument, h)
       else (inr tt, Histogram (axes_ h) (storage_add (storage_ h) (storage_ rhs))).

(** [operator==], lines 244-247, and [operator!=], lines 250-253. *)
Definition hist_equal `{AxisEqual A B, CellEqual C D}
    (a : histogram A C) (b : histogram B D) : bool :=
  axes_equal (axes_ a) (axes_ b) && storage_equal (storage_ a) (storage_ b).

Definition hist_not_equal `{AxisEqual A B, CellEqual C D}
    (a : histogram A C) (b : histogram B D) : bool :=
  negb (hist_equal a b).
End cross_type_members.

(** ** Free operators, lines 270-300 *)

Section operators.
Context {A C : Type}.

(** [h * x], lines 270-274: a copy of [h] in the storage common to [S] and
    [dense_storage<double>] (cell type [CS]), scaled in place. *)
Definition hist_mul {CS} `{Convert C CS, CellScale CS}
    (h : histogram A C) (x : float) : histogram A CS :=
  (imul x (histogram_convert h)).2.

(** [x * h], lines 276-279. *)
Definition hist_mul_left {CS} `{Convert C CS, CellScale CS}
    (x : float) (h : histogram A C) : histogram A CS :=
  hist_mul h x.

(** [h / x], lines 281-284. *)
Definition hist_div {CS} `{Convert C CS, CellScale CS}
    (h : histogram A C) (x : float) : histogram A CS :=
  hist_mul h (1 / x)%float.

(** [a + b] on two lvalues, lines 286-290: [r] is [a] converted to the
    common axes type [AC] and the common storage (cell type [CC]); then
    [r += b]. *)
Definition hist_add {A2 C2 AC CC}
    `{Convert A AC, Convert C CC, AxisEqual AC A2, CellAdd CC C2}
    (a : histogram A C) (b : histogram A2 C2) : result (histogram AC CC) :=
  returning (iadd b) (histogram_convert a).

(** [a + b] with an expiring left operand, lines 292-295: [a += b]. *)
Definition hist_add_rvalue_lhs `{AxisEqual A A, CellAdd C C}
    (a b : histogram A C) : result (histogram A C) :=
  returning (iadd b) a.

(** [a + b] with an expiring right operand, lines 297-300: [b += a]. *)
Definition hist_add_rvalue_rhs `{AxisEqual A A, CellAdd C C}
    (a b : histogram A C) : result (histogram A C) :=
  returning (iadd a) b.
End operators.

(** Two histograms of one type share structurally equal axes. *)
Definition same_axes {A C} `{AxisEqual A A} (a b : histogram A C) : Prop :=
  axes_equal (axes_ a) (axes_ b) = true.

(** The three overloads of binary [+] on histograms of one type; overload
    resolution picks the second for an expiring left operand and the third
    for an expiring right operand. *)
Inductive add_overload : Type :=
  | AddLvalues
  | AddRvalueLhs
  | AddRvalueRhs.

Definition hist_add_via {A C} `{AxisEqual A A, CellAdd C C}
    (o : add_overload) (a b : histogram A C) : result (histogram A C) :=
  match o with
  | AddLvalues => hist_add a b
  | AddRvalueLhs => hist_add_rvalue_lhs a b
  | AddRvalueRhs => hist_add_rvalue_rhs a b
  end.

(** ** An instantiation: integer axes, counting cells and [double] cells *)

(** An axis of [bins] unit-width integer bins starting at [lower]; the
    overflow bin and the underflow bin are placed behind the ordinary ones. *)
Record integer_axis : Type := IntegerAxis {
  lower : Z;
  bins : nat;
}.

#[global] Instance integer_axis_eq_dec : EqDecision integer_axis.
Proof. solve_decision. Defined.

#[global] Instance integer_axis_extent : Extent integer_axis :=
  λ a, bins a + 2.

#[global] Instance integer_axis_index : Index Z integer_axis :=
  λ a v,
    if decide (v < lower a)%Z then (Z.of_nat (bins a) + 1)%Z
    else if decide (lower a + Z.of_nat (bins a) ≤ v)%Z then Z.of_nat (bins a)
    else (v - lower a)%Z.

#[global] Instance integer_axis_equal : AxisEqual integer_axis integer_axis :=
  λ a b, bool_decide (a = b).

(** Counting cells: a plain fill adds one, a weighted fill adds the weight,
    samples are not recorded. *)
#[global] Instance count_cell : Cell nat unit nat := {|
  cell_default := 0;
  cell_observe := S;
  cell_observe_weight := λ w c, c + w;
  cell_observe_sample := λ _ c, S c;
  cell_observe_weight_sample := λ w _ c, c + w;
|}.

#[global] Instance count_add : CellAdd nat nat := Nat.add.
#[global] Instance count_equal : CellEqual nat nat := Nat.eqb.

(** Signed counts, the common cell type of counts and signed counts. *)
#[global] Instance count_to_signed : Convert nat Z := Z.of_nat.
#[global] Instance signed_add : CellAdd Z Z := Z.add.
#[global] Instance signed_add_count : CellAdd Z nat := λ z n, (z + Z.of_nat n)%Z.
#[global] Instance signed_equal : CellEqual Z Z := Z.eqb.

(** [double] cells, and the conversion of a count into one. *)
#[global] Instance double_scale : CellScale float := λ x c, (c * x)%float.
#[global] Instance count_to_double : Convert nat float :=
  λ n, PrimFloat.of_uint63 (Uint63.of_Z (Z.of_nat n)).

#[global] Instance double_cell : Cell float unit float := {|
  cell_default := 0%float;
  cell_observe := λ c, (c + 1)%float;
  cell_observe_weight := λ w c, (c + w)%float;
  cell_observe_sample := λ _ c, (c + 1)%float;
  cell_observe_weight_sample := λ w _ c, (c + w)%float;
|}.

#[global] Instance double_add_count : CellAdd float nat :=
  λ c n, (c + convert n)%float.

#[global] Instance double_add : CellAdd float float :=
  λ c d, (c + d)%float.

#[global] Instance double_equal : CellEqual float float := PrimFloat.eqb.

(** A histogram over two such axes with 3 and 2 ordinary bins, each with
    overflow and underflow, hence 5 * 4 cells. *)
Definition example_axes : list integer_axis :=
  [IntegerAxis 0 3; IntegerAxis 0 2].

Definition example_histogram : histogram integer_axis nat :=
  Histogram example_axes (replicate 20 0).

(** The same histogram after one fill at the coordinates [(1, 0)], and a
    histogram over the first axis alone. *)
Definition example_filled : histogram integer_axis nat :=
  (fill (FillArgs None None [1; 0]%Z) example_histogram).2.

Definition example_rank1 : histogram integer_axis nat :=
  Histogram [IntegerAxis 0 3] (replicate 5 0).

(** A histogram over the same axes with signed counts. *)
Definition example_signed : histogram integer_axis Z :=
  Histogram example_axes (replicate 20 (-3)%Z).

(** [example_filled * 0.1], [* 0.2] and [* 0.3]: histograms with [double]
    cells, as [operator*] returns them. *)
Definition example_tenths (n : float) : histogram integer_axis float :=
  hist_mul example_filled (n / 10)%float.

(** The instances keep the contracts of their interfaces. *)

#[global] Instance integer_axis_contract : AxisContract Z integer_axis.
Proof.
  split; intros a; unfold total_bin_count, integer_axis_extent; [lia|].
  intros v. unfold index, integer_axis_index. repeat case_decide; lia.
Qed.

#[global] Instance integer_axis_equal_extent :
  AxisEqualExtent integer_axis integer_axis.
Proof. intros a b Hab%bool_decide_eq_true. by subst. Qed.

#[global] Instance integer_axis_equal_equiv : AxisEqualEquiv integer_axis.
Proof.
  split; unfold axis_equal, integer_axis_equal.
  - intros a. by apply bool_decide_eq_true.
  - intros a b Hab%bool_decide_eq_true. by apply bool_decide_eq_true.
  - intros a b c Hab%bool_decide_eq_true Hbc%bool_decide_eq_true.
    apply bool_decide_eq_true. congruence.
Qed.

#[global] Instance convert_id_extent {A} `{Extent A} : ConvertExtent A A.
Proof. by intros a. Qed.

#[global] Instance count_add_exact : CellAddExact nat.
Proof. split; unfold cell_add, count_add; intros; lia. Qed.

#[global] Instance count_equal_refl : CellEqualRefl nat.
Proof. intros x. apply Nat.eqb_refl. Qed.

#[global] Instance signed_add_exact : CellAddExact Z.
Proof. split; unfold cell_add, signed_add; intros; lia. Qed.

#[global] Instance signed_equal_refl : CellEqualRefl Z.
Proof. intros x. apply Z.eqb_refl. Qed.

#[global] Instance signed_add_count_convert : CellAddConvert nat Z.
Proof. by intros x y. Qed.

(** * Properties *)

(** ** Linearisation *)

Section linearize_facts.
Context {A : Type} `{Extent A}.

Lemma linearize_acc (acc : nat) (axes : list A) (ids : list Z) :
  linearize acc axes ids = (λ o, acc * bincount axes + o) <$> linearize 0 axes ids.
Proof.
  revert acc ids. induction axes as [|a axes IH]; intros acc [|j ids]; simpl; try done.
  - f_equal. lia.
  - destruct (bin_in_range a j); [|done].
    rewrite (IH (acc * _ + _)), (IH (Z.to_nat j)).
    destruct (linearize 0 axes ids) as [o|]; simpl; [|done].
    f_equal. lia.
Qed.

Lemma linearize_cons (a : A) (axes : list A) (j : Z) (ids : list Z) :
  linearize 0 (a :: axes) (j :: ids) =
    if bin_in_range a j
    then (λ o, Z.to_nat j * bincount axes + o) <$> linearize 0 axes ids
    else None.
Proof. simpl. destruct (bin_in_range a j); [|done]. apply linearize_acc. Qed.

Lemma linearize_Some_range (axes : list A) (ids : list Z) (o : nat) :
  linearize 0 axes ids = Some o → bins_in_range axes ids ∧ o < bincount axes.
Proof.
  revert ids o. induction axes as [|a axes IH]; intros [|j ids] o; try done.
  - intros [= <-]. split; [constructor | simpl; lia].
  - rewrite linearize_cons. unfold bin_in_range. case_bool_decide as Hj; [|done].
    destruct (linearize 0 axes ids) as [o'|] eqn:Ho'; [|done].
    intros [= <-]. destruct (IH _ _ Ho') as [Hr Hlt].
    split; [by constructor|]. simpl. nia.
Qed.

Lemma linearize_in_range (axes : list A) (ids : list Z) :
  bins_in_range axes ids → is_Some (linearize 0 axes ids).
Proof.
  induction 1 as [|a j axes ids Hj _ [o Ho]]; [by eexists|].
  rewrite linearize_cons. unfold bin_in_range.
  rewrite bool_decide_eq_true_2 by done. rewrite Ho. by eexists.
Qed.

Lemma delinearize_linearize (axes : list A) (ids : list Z) (o : nat) :
  linearize 0 axes ids = Some o → delinearize axes o = ids.
Proof.
  revert ids o. induction axes as [|a axes IH]; intros [|j ids] o; try done.
  rewrite linearize_cons. unfold bin_in_range. case_bool_decide as Hj; [|done].
  destruct (linearize 0 axes ids) as [o'|] eqn:Ho'; [|done].
  intros [= <-]. destruct (linearize_Some_range _ _ _ Ho') as [_ Hlt].
  simpl. rewrite Nat.div_add_l, Nat.div_small, Nat.add_0_r by lia.
  rewrite Nat.add_comm, Nat.Div0.mod_add, Nat.mod_small by lia.
  f_equal; [lia | by apply IH].
Qed.

Lemma linearize_delinearize (axes : list A) (o : nat) :
  o < bincount axes → linearize 0 axes (delinearize axes o) = Some o.
Proof.
  revert o. induction axes as [|a axes IH]; intros o Ho; simpl in Ho.
  - simpl. f_equal. lia.
  - assert (bincount axes ≠ 0) as Hpos by (intros E; rewrite E in Ho; lia).
    cbn [delinearize]. rewrite linearize_cons. unfold bin_in_range.
    rewrite bool_decide_eq_true_2.
    + rewrite IH by (apply Nat.mod_upper_bound; done). simpl. f_equal.
      rewrite Nat2Z.id.
      pose proof (Nat.div_mod_eq o (bincount axes)). lia.
    + split; [lia|]. apply Nat2Z.inj_lt. apply Nat.Div0.div_lt_upper_bound. lia.
Qed.

Lemma linearize_inj (axes : list A) (ids ids' : list Z) (o : nat) :
  linearize 0 axes ids = Some o → linearize 0 axes ids' = Some o → ids = ids'.
Proof.
  intros H1 H2. apply delinearize_linearize in H1, H2. congruence.
Qed.

(** C2.  The row-major mixed-radix linearisation shared by fill and [at] is
    a bijection between the tuples of in-range bin ids and the offsets below
    the product of the axes' total bin counts: every in-range tuple has an
    offset below the product, two tuples with the same offset are the same
    tuple, and every offset below the product is the offset of the in-range
    tuple [delinearize] decodes it to. *)
Theorem linearize_bijective (axes : list A) :
  (∀ ids, bins_in_range axes ids →
     ∃ o, linearize 0 axes ids = Some o ∧ o < bincount axes) ∧
  (∀ ids ids' o,
     linearize 0 axes ids = Some o → linearize 0 axes ids' = Some o → ids = ids') ∧
  (∀ o, o < bincount axes →
     bins_in_range axes (delinearize axes o) ∧
     linearize 0 axes (delinearize axes o) = Some o) ∧
  (∀ ids o, linearize 0 axes ids = Some o → delinearize axes o = ids).
Proof.
  split; [|split; [|split]].
  - intros ids [o Ho]%linearize_in_range. exists o. split; [done|].
    by apply linearize_Some_range in Ho as [_ ?].
  - apply linearize_inj.
  - intros o Ho%linearize_delinearize. split; [|done].
    by apply linearize_Some_range in Ho as [? _].
  - apply delinearize_linearize.
Qed.
End linearize_facts.

(** ** Fill and indexed access *)

Section fill_at.
Context {V A C W Smp : Type}.
Context `{Extent A, Index V A, Cell W Smp C, !AxisContract V A}.

Lemma index_bins_in_range (axes : list A) (coords : list V) :
  length coords = length axes →
  bins_in_range axes (zip_with index axes coords).
Proof.
  revert coords. induction axes as [|a axes IH]; intros [|v coords]; try done.
  - constructor.
  - intros [= Hlen]. constructor; [apply index_in_range | by apply IH].
Qed.

Lemma at_ref_Some (h : histogram A C) (ids : list Z) (o : nat) :
  at_ref h ids = inr o ↔ linearize 0 (axes_ h) ids = Some o.
Proof.
  unfold at_ref, detail_at. case_decide as Hlen.
  - destruct (linearize 0 (axes_ h) ids); naive_solver.
  - split; [done|]. intros Ho. destruct Hlen.
    apply linearize_Some_range in Ho as [Hr _]. symmetry. by eapply Forall2_length.
Qed.

Lemma at_ref_storage_irrelevant (h : histogram A C) (s : list C) (ids : list Z) :
  at_ref (Histogram (axes_ h) s) ids = at_ref h ids.
Proof. done. Qed.

Lemma fill_spec (h : histogram A C) (args : fill_args) :
  length (fill_coordinates args) = rank h →
  ∃ o, at_ref h (zip_with index (axes_ h) (fill_coordinates args)) = inr o ∧
       o < bincount (axes_ h) ∧
       fill args h =
         (inr tt, Histogram (axes_ h) (alter (cell_update args) o (storage_ h))).
Proof.
  intros Hlen. unfold rank in Hlen.
  destruct (linearize_in_range _ _ (index_bins_in_range _ _ Hlen)) as [o Ho].
  exists o. split; [by apply at_ref_Some|].
  split; [by apply linearize_Some_range in Ho as [_ ?]|].
  unfold fill, detail_fill. rewrite decide_True by done. by rewrite Ho.
Qed.

Lemma at_after_cell_update (h : histogram A C) (f : C → C) (o : nat) (ids : list Z) :
  at_ (Histogram (axes_ h) (alter f o (storage_ h))) ids =
    match at_ref h ids with
    | inl e => inl e
    | inr o' =>
        if decide (o' = o)
        then inr (default cell_default (f <$> storage_ h !! o))
        else inr (storage_get (storage_ h) o')
    end.
Proof.
  unfold at_. rewrite at_ref_storage_irrelevant.
  destruct (at_ref h ids) as [e|o']; [done|]. simpl. unfold storage_get.
  case_decide as Ho; [subst o'|].
  - by rewrite list_lookup_alter_eq.
  - by rewrite list_lookup_alter_ne.
Qed.

(** C1.  On a histogram that satisfies its invariant, a plain fill with as
    many coordinates as there are axes succeeds; the coordinates route to the
    bin ids [ids] (one axis lookup each), [at(ids)] addresses one cell, after
    the fill it reads that cell with exactly one more observation, every
    other index tuple reads (or fails) as before, every other storage cell
    is unchanged, and so are the axes and the size. *)
Theorem fill_at_consistency (h : histogram A C) (coords : list V) :
  hist_inv h →
  length coords = rank h →
  let ids := zip_with index (axes_ h) coords in
  let h' := (fill (FillArgs None None coords) h).2 in
  (fill (FillArgs None None coords) h).1 = inr tt ∧
  axes_ h' = axes_ h ∧
  size h' = size h ∧
  (∃ o c, at_ref h ids = inr o ∧ at_ref h' ids = inr o ∧
          storage_ h !! o = Some c ∧
          at_ h ids = inr c ∧
          at_ h' ids = inr (cell_observe c) ∧
          (∀ o', o' ≠ o → storage_ h' !! o' = storage_ h !! o')) ∧
  (∀ ids', ids' ≠ ids → at_ h' ids' = at_ h ids').
Proof.
  intros [_ Hsize] Hlen ids h'.
  destruct (fill_spec h (FillArgs None None coords) Hlen) as (o & Hat & Ho & Hfill).
  cbn [fill_coordinates] in Hat. fold ids in Hat. subst h'. rewrite Hfill. simpl.
  unfold size in *. simpl. rewrite length_alter.
  rewrite <- Hsize in Ho. apply lookup_lt_is_Some_2 in Ho as [c Hc].
  split; [done|]. split; [done|]. split; [done|]. split.
  - exists o, c. rewrite at_ref_storage_irrelevant.
    split; [done|]. split; [done|]. split; [done|].
    rewrite at_after_cell_update. unfold at_. rewrite Hat.
    rewrite decide_True by done. unfold storage_get. rewrite Hc. simpl.
    split; [done|]. split; [done|].
    intros o' Ho'. by apply list_lookup_alter_ne.
  - intros ids' Hne. rewrite at_after_cell_update. unfold at_.
    destruct (at_ref h ids') as [e|o'] eqn:Hat'; [done|].
    rewrite decide_False; [done|].
    intros ->. apply Hne. apply at_ref_Some in Hat, Hat'.
    by eapply linearize_inj.
Qed.
End fill_at.

(** ** Failing indexed access *)

Section at_errors.
Context {A C W Smp : Type}.
Context `{Extent A, Cell W Smp C}.

Lemma linearize_out_of_range (axes : list A) (ids : list Z) (i : nat) (a : A) (j : Z) :
  axes !! i = Some a → ids !! i = Some j →
  ¬ (0 ≤ j < Z.of_nat (total_bin_count a))%Z →
  linearize 0 axes ids = None.
Proof.
  intros Ha Hj Hout. destruct (linearize 0 axes ids) as [o|] eqn:Ho; [|done].
  apply linearize_Some_range in Ho as [Hr _]. destruct Hout.
  by eapply (Forall2_lookup_lr _ _ _ _ _ _ Hr).
Qed.

(** C9.  [at] with a number of indices other than the rank throws
    [std::invalid_argument]; with as many indices as axes, one of them
    outside [[0, total_bin_count)] of its axis, it throws
    [std::out_of_range] (no index is clamped into range).  In both cases the
    outcome is the same whatever the storage holds, and a write through
    [at] leaves the histogram as it was. *)
Theorem at_rejects_bad_indices (h : histogram A C) (ids : list Z) (f : C → C) :
  (length ids ≠ rank h →
     at_ref h ids = inl InvalidArgument ∧
     (∀ s, at_ (Histogram (axes_ h) s) ids = inl InvalidArgument) ∧
     at_ h ids = inl InvalidArgument ∧
     at_write ids f h = (inl InvalidArgument, h)) ∧
  (length ids = rank h →
     (∃ i a j, axes_ h !! i = Some a ∧ ids !! i = Some j ∧
               ¬ (0 ≤ j < Z.of_nat (total_bin_count a))%Z) →
     at_ref h ids = inl OutOfRange ∧
     (∀ s, at_ (Histogram (axes_ h) s) ids = inl OutOfRange) ∧
     at_ h ids = inl OutOfRange ∧
     at_write ids f h = (inl OutOfRange, h)).
Proof.
  split.
  - intros Hlen.
    assert (at_ref h ids = inl InvalidArgument) as Href.
    { unfold at_ref, detail_at. by rewrite decide_False. }
    unfold at_, at_write. rewrite Href. repeat split; try done.
    intros s. by rewrite at_ref_storage_irrelevant, Href.
  - intros Hlen (i & a & j & Ha & Hj & Hout).
    assert (at_ref h ids = inl OutOfRange) as Href.
    { unfold at_ref, detail_at. rewrite decide_True by done.
      by rewrite (linearize_out_of_range _ _ _ _ _ Ha Hj Hout). }
    unfold at_, at_write. rewrite Href. repeat split; try done.
    intros s. by rewrite at_ref_storage_irrelevant, Href.
Qed.
End at_errors.

(** ** Reset *)

Section reset_facts.
Context {A C W Smp : Type}.
Context `{Cell W Smp C}.

(** C10.  [reset()] succeeds, keeps the axes, the rank and the storage
    size, and leaves every cell default-initialised. *)
Theorem reset_clears_cells (h : histogram A C) :
  (reset h).1 = inr tt ∧
  axes_ (reset h).2 = axes_ h ∧
  rank (reset h).2 = rank h ∧
  size (reset h).2 = size h ∧
  storage_ (reset h).2 = replicate (size h) cell_default ∧
  (∀ o, o < size h → storage_ (reset h).2 !! o = Some cell_default).
Proof.
  unfold reset, rank, size, storage_reset. simpl.
  rewrite length_replicate. repeat split.
  intros o Ho. by apply lookup_replicate_2.
Qed.
End reset_facts.

(** ** Compound addition *)

Section compound_add.
Context {A B C D : Type}.
Context `{Extent A, Extent B, AxisEqual A B, CellAdd C D}.

Lemma length_storage_add (s : list C) (r : list D) :
  length (storage_add s r) = length s.
Proof.
  revert r. induction s as [|x s IH]; intros [|y r]; simpl; try done.
  by rewrite IH.
Qed.

Lemma lookup_storage_add (s : list C) (r : list D) (o : nat) :
  storage_add s r !! o =
    match s !! o, r !! o with
    | Some x, Some y => Some (cell_add x y)
    | x, _ => x
    end.
Proof.
  revert r o. induction s as [|x s IH]; intros [|y r] [|o]; simpl; try done.
  by destruct (s !! o).
Qed.

Lemma axes_equal_length (xs : list A) (ys : list B) :
  axes_equal xs ys = true → length xs = length ys.
Proof.
  revert ys. induction xs as [|x xs IH]; intros [|y ys]; simpl; try done.
  intros [_ Hrest]%andb_true_iff. f_equal. by apply IH.
Qed.

Lemma axes_equal_bincount `{!AxisEqualExtent A B} (xs : list A) (ys : list B) :
  axes_equal xs ys = true → bincount xs = bincount ys.
Proof.
  revert ys. induction xs as [|x xs IH]; intros [|y ys]; simpl; try done.
  intros [Hxy Hrest]%andb_true_iff.
  by rewrite (axis_equal_extent _ _ Hxy), (IH _ Hrest).
Qed.

Lemma iadd_unequal_axes (a : histogram A C) (b : histogram B D) :
  axes_equal (axes_ a) (axes_ b) = false →
  iadd b a = (inl InvalidArgument, a).
Proof. intros Hne. unfold iadd. by rewrite Hne. Qed.

Lemma iadd_equal_axes (a : histogram A C) (b : histogram B D) :
  axes_equal (axes_ a) (axes_ b) = true →
  iadd b a = (inr tt, Histogram (axes_ a) (storage_add (storage_ a) (storage_ b))).
Proof. intros Heq. unfold iadd. by rewrite Heq. Qed.

Lemma equal_axes_size `{!AxisEqualExtent A B} (a : histogram A C) (b : histogram B D) :
  hist_inv a → hist_inv b →
  axes_equal (axes_ a) (axes_ b) = true → size a = size b.
Proof.
  intros [_ Ha] [_ Hb] Heq. by rewrite Ha, Hb, (axes_equal_bincount _ _ Heq).
Qed.

(** C5.  [a += b] on structurally unequal axes throws
    [std::invalid_argument] and [a] is what it was: the same axes and the
    same storage. *)
Theorem iadd_axes_mismatch (a : histogram A C) (b : histogram B D) :
  axes_equal (axes_ a) (axes_ b) = false →
  (iadd b a).1 = inl InvalidArgument ∧
  (iadd b a).2 = a ∧
  axes_ (iadd b a).2 = axes_ a ∧
  storage_ (iadd b a).2 = storage_ a.
Proof. intros Hne. by rewrite (iadd_unequal_axes _ _ Hne). Qed.

(** C4.  [a += b] on structurally equal axes succeeds, keeps the axes (and
    the size) of [a], and hands the storages to the storage's elementwise
    addition: every cell of [a] becomes [cell_a += cell_b] with the cell of
    [b] at the same offset. *)
Theorem iadd_accumulates `{!AxisEqualExtent A B}
    (a : histogram A C) (b : histogram B D) :
  hist_inv a → hist_inv b →
  axes_equal (axes_ a) (axes_ b) = true →
  (iadd b a).1 = inr tt ∧
  axes_ (iadd b a).2 = axes_ a ∧
  size (iadd b a).2 = size a ∧
  storage_ (iadd b a).2 = storage_add (storage_ a) (storage_ b) ∧
  (∀ o, o < size a →
     ∃ x y, storage_ a !! o = Some x ∧ storage_ b !! o = Some y ∧
            storage_ (iadd b a).2 !! o = Some (cell_add x y)).
Proof.
  intros Ha Hb Heq. rewrite (iadd_equal_axes _ _ Heq). simpl.
  pose proof (equal_axes_size a b Ha Hb Heq) as Hsz.
  unfold size in *. simpl. rewrite length_storage_add.
  repeat split. intros o Ho.
  assert (o < length (storage_ b)) as Ho' by lia.
  apply lookup_lt_is_Some_2 in Ho as [x Hx], Ho' as [y Hy].
  exists x, y. by rewrite lookup_storage_add, Hx, Hy.
Qed.
End compound_add.

(** ** The class invariant *)

Section invariant.
Context {V A B C D W Smp : Type}.
Context `{Extent A, Extent B, Index V A, Cell W Smp C, CellScale C}.
Context `{AxisEqual A B, CellAdd C D, AxisEqual A A, CellAdd C C}.
Context `{Convert B A, Convert D C, !ConvertExtent B A}.

Lemma bincount_axes_assign (xs : list B) :
  bincount (axes_assign xs : list A) = bincount xs.
Proof.
  induction xs as [|x xs IH]; [done|].
  simpl. rewrite convert_extent. f_equal. apply IH.
Qed.

Lemma hist_inv_storage (h : histogram A C) (s : list C) :
  hist_inv h → length s = length (storage_ h) → hist_inv (Histogram (axes_ h) s).
Proof. intros [Hrank Hsize] Hlen. split; [done|]. unfold size in *. simpl. congruence. Qed.

Lemma hist_inv_convert (rhs : histogram B D) :
  hist_inv rhs → hist_inv (histogram_convert rhs : histogram A C).
Proof.
  intros [Hrank Hsize]. unfold hist_inv, rank, size, histogram_convert in *. simpl.
  rewrite bincount_axes_assign. unfold axes_assign. by rewrite !length_fmap.
Qed.



Lemma hist_inv_imul (x : float) (h : histogram A C) :
  hist_inv h → hist_inv (imul x h).2.
Proof.
  intros Hh. unfold imul. simpl. apply hist_inv_storage; [done|].
  unfold storage_scale. apply length_fmap.
Qed.




End invariant.


(** ** Binary addition *)

Section binary_add.
Context {A1 C1 A2 C2 AC CC : Type}.
Context `{Extent A1, Extent A2, Extent AC}.
Context `{Convert A1 AC, Convert C1 CC, AxisEqual AC A2, CellAdd CC C2}.
Context `{!ConvertExtent A1 AC, !AxisEqualExtent AC A2}.

(** C6.  [a + b] on operands of any two histogram types is the compound
    addition of [b] to a copy of [a] converted to the common axes and
    storage types.  When the converted axes of [a] equal the axes of [b] the
    result has the axes of [a], converted, the size of [a], and every cell
    is the (converted) cell of [a] plus the cell of [b] at the same offset;
    otherwise the compound addition throws [std::invalid_argument].  The
    operands are taken by reference to const; the operator is a function of
    their values and returns a new histogram. *)
Theorem hist_add_cells (a : histogram A1 C1) (b : histogram A2 C2) :
  hist_inv a → hist_inv b →
  hist_add a b = returning (iadd b) (histogram_convert a : histogram AC CC) ∧
  (axes_equal (axes_assign (axes_ a) : list AC) (axes_ b) = true →
     ∃ r : histogram AC CC,
       hist_add a b = inr r ∧
       axes_ r = convert <$> axes_ a ∧
       size r = size a ∧
       hist_inv r ∧
       ∀ o, o < size a →
         ∃ x y, storage_ a !! o = Some x ∧ storage_ b !! o = Some y ∧
                storage_ r !! o = Some (cell_add (convert x) y)) ∧
  (axes_equal (axes_assign (axes_ a) : list AC) (axes_ b) = false →
     hist_add (AC:=AC) (CC:=CC) a b = inl InvalidArgument).
Proof.
  intros Ha Hb. split; [done|]. unfold hist_add, returning. split.
  - intros Heq.
    pose proof (hist_inv_convert (A:=AC) (C:=CC) a Ha) as Hr.
    pose proof (equal_axes_size _ b Hr Hb Heq) as Hsz.
    rewrite (iadd_equal_axes (histogram_convert a : histogram AC CC) b Heq).
    eexists. split; [done|]. unfold size in *. simpl in *.
    rewrite length_storage_add, !length_fmap in *.
    split; [done|]. split; [done|]. split.
    { apply (hist_inv_storage (histogram_convert a : histogram AC CC)); [done|].
      apply length_storage_add. }
    intros o Ho.
    assert (o < length (storage_ b)) as Ho' by lia.
    apply lookup_lt_is_Some_2 in Ho as [x Hx], Ho' as [y Hy].
    exists x, y. by rewrite lookup_storage_add, list_lookup_fmap, Hx, Hy.
  - intros Hne.
    by rewrite (iadd_unequal_axes (histogram_convert a : histogram AC CC) b Hne).
Qed.
End binary_add.

(** ** Additivity *)

Section additivity.
Context {A C : Type}.
Context `{Extent A, AxisEqual A A, CellAdd C C, CellEqual C C}.
Context `{!AxisEqualEquiv A, !AxisEqualExtent A A, !CellAddExact C, !CellEqualRefl C}.

Lemma axes_equal_refl (xs : list A) : axes_equal xs xs = true.
Proof.
  induction xs as [|x xs IH]; [done|]. simpl. by rewrite axis_equal_refl, IH.
Qed.

Lemma axes_equal_sym (xs ys : list A) :
  axes_equal xs ys = true → axes_equal ys xs = true.
Proof.
  revert ys. induction xs as [|x xs IH]; intros [|y ys]; simpl; try done.
  intros [Hxy Hrest]%andb_true_iff. by rewrite (axis_equal_sym _ _ Hxy), (IH _ Hrest).
Qed.

Lemma axes_equal_trans (xs ys zs : list A) :
  axes_equal xs ys = true → axes_equal ys zs = true → axes_equal xs zs = true.
Proof.
  revert ys zs. induction xs as [|x xs IH]; intros [|y ys] [|z zs]; simpl; try done.
  intros [Hxy Hxys]%andb_true_iff [Hyz Hyzs]%andb_true_iff.
  by rewrite (axis_equal_trans _ _ _ Hxy Hyz), (IH _ _ Hxys Hyzs).
Qed.

#[local] Instance same_axes_equivalence : Equivalence (same_axes (A:=A) (C:=C)).
Proof.
  split.
  - intros a. apply axes_equal_refl.
  - intros a b. apply axes_equal_sym.
  - intros a b c. apply axes_equal_trans.
Qed.

Lemma storage_add_comm (s r : list C) :
  length s = length r → storage_add s r = storage_add r s.
Proof.
  revert r. induction s as [|x s IH]; intros [|y r]; simpl; try done.
  intros [= Hlen]. by rewrite cell_add_comm, IH.
Qed.

Lemma storage_add_assoc (s r t : list C) :
  length s = length r → length r = length t →
  storage_add (storage_add s r) t = storage_add s (storage_add r t).
Proof.
  revert r t. induction s as [|x s IH]; intros [|y r] [|z t]; simpl; try done.
  intros [= Hsr] [= Hrt]. by rewrite cell_add_assoc, IH.
Qed.

Lemma storage_equal_refl (s : list C) : storage_equal s s = true.
Proof.
  induction s as [|x s IH]; [done|]. simpl. by rewrite cell_equal_refl, IH.
Qed.

Lemma histogram_convert_id (a : histogram A C) : histogram_convert a = a.
Proof.
  unfold histogram_convert, axes_assign, convert, convert_id.
  rewrite !list_fmap_id. by destruct a.
Qed.

Lemma hist_add_via_spec (o : add_overload) (a b : histogram A C) :
  hist_inv a → hist_inv b → same_axes a b →
  ∃ r, hist_add_via o a b = inr r ∧
       hist_inv r ∧ same_axes a r ∧ size r = size a ∧
       storage_ r = storage_add (storage_ a) (storage_ b).
Proof.
  intros Ha Hb Hab. pose proof (equal_axes_size a b Ha Hb Hab) as Hsz.
  destruct o; simpl.
  - unfold hist_add, returning. rewrite histogram_convert_id.
    rewrite (iadd_equal_axes a b Hab). eexists. split; [done|].
    unfold size. simpl. rewrite length_storage_add.
    split; [|split; [apply axes_equal_refl | done]].
    apply hist_inv_storage; [done | apply length_storage_add].
  - unfold hist_add_rvalue_lhs, returning.
    rewrite (iadd_equal_axes a b Hab). eexists. split; [done|].
    unfold size. simpl. rewrite length_storage_add.
    split; [|split; [apply axes_equal_refl | done]].
    apply hist_inv_storage; [done | apply length_storage_add].
  - unfold hist_add_rvalue_rhs, returning. symmetry in Hab.
    rewrite (iadd_equal_axes b a Hab). eexists. split; [done|].
    unfold size in *. simpl. rewrite length_storage_add.
    split; [|split; [by symmetry | split; [done|]]].
    + apply hist_inv_storage; [done | apply length_storage_add].
    + by apply storage_add_comm.
Qed.

Lemma hist_equal_intro (l r : histogram A C) :
  same_axes l r → storage_ l = storage_ r → hist_equal l r = true.
Proof.
  intros Haxes Hst. unfold hist_equal. rewrite Haxes, Hst. apply storage_equal_refl.
Qed.

Lemma hist_add_via_comm_assoc (a b c : histogram A C) (o1 o2 o3 o4 : add_overload) :
  hist_inv a → hist_inv b → hist_inv c →
  same_axes a b → same_axes b c →
  (∃ ab ba,
     hist_add_via o1 a b = inr ab ∧ hist_add_via o2 b a = inr ba ∧
     hist_equal ab ba = true ∧ storage_ ab = storage_ ba) ∧
  (∃ ab bc l r,
     hist_add_via o1 a b = inr ab ∧ hist_add_via o2 ab c = inr l ∧
     hist_add_via o3 b c = inr bc ∧ hist_add_via o4 a bc = inr r ∧
     hist_equal l r = true ∧ storage_ l = storage_ r).
Proof.
  intros Ha Hb Hc Hab Hbc.
  pose proof (equal_axes_size a b Ha Hb Hab) as Hsab.
  pose proof (equal_axes_size b c Hb Hc Hbc) as Hsbc.
  destruct (hist_add_via_spec o1 a b Ha Hb Hab) as (ab & Eab & Iab & Aab & Sab & Cab).
  split.
  - assert (same_axes b a) as Hba by (by symmetry).
    destruct (hist_add_via_spec o2 b a Hb Ha Hba) as (ba & Eba & Iba & Aba & Sba & Cba).
    exists ab, ba. split; [done|]. split; [done|].
    assert (storage_ ab = storage_ ba) as Hst.
    { rewrite Cab, Cba. by apply storage_add_comm. }
    split; [|done]. apply hist_equal_intro; [|done].
    by rewrite <- Aab, Hab.
  - assert (same_axes ab c) as Habc by (by rewrite <- Aab, Hab).
    destruct (hist_add_via_spec o2 ab c Iab Hc Habc) as (l & El & Il & Al & Sl & Cl).
    destruct (hist_add_via_spec o3 b c Hb Hc Hbc) as (bc & Ebc & Ibc & Abc & Sbc & Cbc).
    assert (same_axes a bc) as Ha_bc by (by rewrite Hab).
    destruct (hist_add_via_spec o4 a bc Ha Ibc Ha_bc) as (r & Er & Ir & Ar & Sr & Cr).
    exists ab, bc, l, r. repeat (split; [done|]).
    assert (storage_ l = storage_ r) as Hst.
    { rewrite Cl, Cr, Cab, Cbc. unfold size in *. by apply storage_add_assoc. }
    split; [|done]. apply hist_equal_intro; [|done].
    by rewrite <- Al, <- Aab.
Qed.
End additivity.

Section add_converted.
Context {A C B D AC CC : Type}.
Context `{Convert A AC, Convert C CC, Convert B AC, Convert D CC}.
Context `{AxisEqual AC B, AxisEqual AC AC, CellAdd CC D, CellAdd CC CC}.
Context `{!AxisEqualConvert B AC, !CellAddConvert D CC}.

Lemma axes_equal_convert (xs : list AC) (ys : list B) :
  axes_equal xs ys = axes_equal xs (axes_assign ys : list AC).
Proof.
  revert ys. induction xs as [|x xs IH]; intros [|y ys]; simpl; try done.
  by rewrite axis_equal_convert, IH.
Qed.

Lemma storage_add_convert (s : list CC) (r : list D) :
  storage_add s r = storage_add s (convert <$> r : list CC).
Proof.
  revert r. induction s as [|x s IH]; intros [|y r]; simpl; try done.
  by rewrite cell_add_convert, IH.
Qed.

Lemma iadd_convert (r : histogram AC CC) (b : histogram B D) :
  iadd b r = iadd (histogram_convert b : histogram AC CC) r.
Proof.
  unfold iadd, histogram_convert. simpl.
  by rewrite <- axes_equal_convert, <- storage_add_convert.
Qed.

(** Adding histograms of two types is adding their conversions to the
    common type. *)
Lemma hist_add_converted (a : histogram A C) (b : histogram B D) :
  hist_add (AC:=AC) (CC:=CC) a b =
    hist_add_via AddLvalues (histogram_convert a) (histogram_convert b).
Proof.
  unfold hist_add_via, hist_add, returning.
  by rewrite histogram_convert_id, <- iadd_convert.
Qed.
End add_converted.

Section additivity_across_types.
Context {A1 C1 A2 C2 A3 C3 AC CC : Type}.
Context `{Extent A1, Extent A2, Extent A3, Extent AC}.
Context `{Convert A1 AC, Convert A2 AC, Convert A3 AC}.
Context `{Convert C1 CC, Convert C2 CC, Convert C3 CC}.
Context `{AxisEqual AC A1, AxisEqual AC A2, AxisEqual AC A3, AxisEqual AC AC}.
Context `{CellAdd CC C1, CellAdd CC C2, CellAdd CC C3, CellAdd CC CC}.
Context `{CellEqual CC CC}.
Context `{!ConvertExtent A1 AC, !ConvertExtent A2 AC, !ConvertExtent A3 AC}.
Context `{!AxisEqualConvert A1 AC, !AxisEqualConvert A2 AC, !AxisEqualConvert A3 AC}.
Context `{!CellAddConvert C1 CC, !CellAddConvert C2 CC, !CellAddConvert C3 CC}.
Context `{!AxisEqualEquiv AC, !AxisEqualExtent AC AC}.
Context `{!CellAddExact CC, !CellEqualRefl CC}.

(** C7, for cells that add exactly.  Let [a], [b], [c] be histograms, of
    any three types with common axes type [AC] and common cell type [CC],
    whose converted axes are structurally equal, and let the cells of [CC]
    add exactly (commutative, associative, every cell equal to itself).
    Then [a + b] and [b + a] both succeed, compare equal under [==] and
    have identical cells, and so do [(a + b) + c] and [a + (b + c)].  For
    operands of one type the same holds whichever of the three overloads of
    [+] evaluates each sum. *)
Theorem hist_add_comm_assoc
    (a : histogram A1 C1) (b : histogram A2 C2) (c : histogram A3 C3) :
  hist_inv a → hist_inv b → hist_inv c →
  same_axes (histogram_convert a : histogram AC CC) (histogram_convert b) →
  same_axes (histogram_convert b : histogram AC CC) (histogram_convert c) →
  (∃ ab ba : histogram AC CC,
     hist_add a b = inr ab ∧ hist_add b a = inr ba ∧
     hist_equal ab ba = true ∧ storage_ ab = storage_ ba) ∧
  (∃ ab bc l r : histogram AC CC,
     hist_add a b = inr ab ∧ hist_add ab c = inr l ∧
     hist_add b c = inr bc ∧ hist_add a bc = inr r ∧
     hist_equal l r = true ∧ storage_ l = storage_ r) ∧
  (∀ (a' b' c' : histogram AC CC) (o1 o2 o3 o4 : add_overload),
     hist_inv a' → hist_inv b' → hist_inv c' →
     same_axes a' b' → same_axes b' c' →
     (∃ ab ba,
        hist_add_via o1 a' b' = inr ab ∧ hist_add_via o2 b' a' = inr ba ∧
        hist_equal ab ba = true ∧ storage_ ab = storage_ ba) ∧
     (∃ ab bc l r,
        hist_add_via o1 a' b' = inr ab ∧ hist_add_via o2 ab c' = inr l ∧
        hist_add_via o3 b' c' = inr bc ∧ hist_add_via o4 a' bc = inr r ∧
        hist_equal l r = true ∧ storage_ l = storage_ r)).
Proof.
  intros Ha Hb Hc Hab Hbc.
  assert (∀ (a' b' c' : histogram AC CC) (o1 o2 o3 o4 : add_overload),
     hist_inv a' → hist_inv b' → hist_inv c' →
     same_axes a' b' → same_axes b' c' →
     (∃ ab ba,
        hist_add_via o1 a' b' = inr ab ∧ hist_add_via o2 b' a' = inr ba ∧
        hist_equal ab ba = true ∧ storage_ ab = storage_ ba) ∧
     (∃ ab bc l r,
        hist_add_via o1 a' b' = inr ab ∧ hist_add_via o2 ab c' = inr l ∧
        hist_add_via o3 b' c' = inr bc ∧ hist_add_via o4 a' bc = inr r ∧
        hist_equal l r = true ∧ storage_ l = storage_ r)) as Hsame.
  { intros. by apply hist_add_via_comm_assoc. }
  apply (hist_inv_convert (A:=AC) (C:=CC)) in Ha, Hb, Hc.
  destruct (Hsame _ _ _ AddLvalues AddLvalues AddLvalues AddLvalues Ha Hb Hc Hab Hbc)
    as [(ab & ba & Eab & Eba & Heq & Hst)
        (ab' & bc & l & r & Eab' & El & Ebc & Er & Heq' & Hst')].
  split; [|split; [|exact Hsame]].
  - exists ab, ba. by rewrite !hist_add_converted.
  - exists ab', bc, l, r.
    rewrite !hist_add_converted, !histogram_convert_id. done.
Qed.
End additivity_across_types.

Lemma same_axes_example_tenths (m n : float) :
  axes_equal (axes_ (example_tenths m)) (axes_ (example_tenths n)) = true.
Proof. reflexivity. Qed.

Lemma example_tenths_inv (n : float) : hist_inv (example_tenths n).
Proof. split; [unfold rank; simpl; lia | reflexivity]. Qed.

(** C7 as stated fails on [double] cells: with the cell at offset 4 holding
    0.1, 0.2 and 0.3, [(a + b) + c] and [a + (b + c)] are both computed and
    differ in that cell, so [==] is false. *)
Lemma hist_add_assoc_fails_on_doubles :
  hist_inv (example_tenths 1) ∧ hist_inv (example_tenths 2) ∧
  hist_inv (example_tenths 3) ∧
  same_axes (example_tenths 1) (example_tenths 2) ∧
  same_axes (example_tenths 2) (example_tenths 3) ∧
  ∃ ab bc l r : histogram integer_axis float,
    hist_add_via AddLvalues (example_tenths 1) (example_tenths 2) = inr ab ∧
    hist_add_via AddRvalueLhs ab (example_tenths 3) = inr l ∧
    hist_add_via AddLvalues (example_tenths 2) (example_tenths 3) = inr bc ∧
    hist_add_via AddRvalueRhs (example_tenths 1) bc = inr r ∧
    hist_equal l r = false ∧
    storage_ l !! 4 ≠ storage_ r !! 4.
Proof.
  do 3 (split; [apply example_tenths_inv|]).
  do 2 (split; [apply same_axes_example_tenths|]).
  do 4 eexists. do 5 (split; [by vm_compute|]).
  vm_compute. intros [= E].
Qed.

(** ** Scaling *)

Section scaling.
Context {A C CS : Type}.
Context `{Convert C CS, CellScale CS}.

(** Division is multiplication by the reciprocal, for the member and for the
    free operator, and [x * h] is [h * x]. *)
Lemma division_is_reciprocal_multiplication (h : histogram A C) (r : histogram A CS) (x : float) :
  idiv x r = imul (1 / x)%float r ∧
  hist_div h x = (hist_mul h (1 / x)%float : histogram A CS) ∧
  hist_mul_left x h = (hist_mul h x : histogram A CS).
Proof. done. Qed.

(** [h * x] is a new histogram with the axes and the size of [h] whose cell
    at every offset is the cell of [h], converted to the promoted cell type
    and scaled by [x]. *)
Lemma hist_mul_cells (h : histogram A C) (x : float) :
  axes_ (hist_mul h x : histogram A CS) = axes_ h ∧
  size (hist_mul h x : histogram A CS) = size h ∧
  ∀ o, storage_ (hist_mul h x : histogram A CS) !! o =
         cell_scale x ∘ convert <$> storage_ h !! o.
Proof.
  unfold hist_mul, imul, histogram_convert, size, storage_scale, axes_assign.
  simpl. unfold convert at 1, convert_id. rewrite list_fmap_id, !length_fmap.
  repeat split. intros o. rewrite !list_lookup_fmap. by destruct (storage_ h !! o).
Qed.
End scaling.

(** Scaling by [x] and dividing by [x] again computes [(c * x) * (1.0 / x)]
    in every cell.  On [double] cells this is [c] only up to rounding (a cell
    holding 1 comes back as 0.99999999999999989 for [x = 49]), and for a
    subnormal [x] the reciprocal is infinite: a cell holding 1 comes back
    infinite and an empty cell as NaN. *)
Lemma scaling_round_trip_on_doubles :
  storage_ (hist_div (hist_mul example_filled 49 : histogram _ float) 49) !! 4 =
    Some 0x1.fffffffffffffp-1%float ∧
  storage_ (hist_div (hist_mul example_filled 0x1p-1074 : histogram _ float) 0x1p-1074) !! 4 =
    Some infinity ∧
  storage_ (hist_div (hist_mul example_filled 0x1p-1074 : histogram _ float) 0x1p-1074) !! 0 =
    Some nan.
Proof. by vm_compute. Qed.

(** ** Scaling on [double] cells *)





Section double_scaling.
Local Open Scope Z_scope.









End double_scaling.

Section scalar_identity.
Context {A C : Type}.
Context `{Convert C float}.



End scalar_identity.



(** ** The theorems on the example histograms *)

Lemma example_histogram_inv : hist_inv example_histogram.
Proof. split; [unfold rank; simpl; lia | reflexivity]. Defined.

Lemma example_filled_inv : hist_inv example_filled.
Proof. split; [unfold rank; simpl; lia | reflexivity]. Defined.

Lemma fill_at_consistency_witness :
  at_ example_filled [1; 0]%Z = inr 1 ∧
  at_ example_filled [0; 0]%Z = inr 0 ∧
  size example_filled = 20.
Proof.
  destruct (fill_at_consistency example_histogram [1; 0]%Z)
    as (_ & _ & Hsize & (o & c & _ & _ & _ & Hc & Hc' & _) & Hothers).
  - exact example_histogram_inv.
  - reflexivity.
  - vm_compute in Hc. injection Hc as <-.
    split; [exact Hc'|]. split; [|exact Hsize].
    apply (Hothers [0; 0]%Z). intros E. vm_compute in E. discriminate E.
Defined.

Lemma linearize_bijective_witness :
  linearize 0 example_axes [1; 0]%Z = Some 4 ∧
  delinearize example_axes 4 = [1; 0]%Z ∧
  linearize 0 example_axes (delinearize example_axes 19) = Some 19.
Proof.
  destruct (linearize_bijective example_axes) as (_ & _ & Hdec & Henc).
  split; [reflexivity|]. split.
  - apply Henc. reflexivity.
  - apply Hdec. vm_compute. lia.
Defined.


Lemma iadd_accumulates_witness :
  (iadd example_filled example_filled).1 = inr tt ∧
  storage_ (iadd example_filled example_filled).2 !! 4 = Some 2.
Proof.
  destruct (iadd_accumulates example_filled example_filled)
    as (Hok & _ & _ & _ & Hcells).
  - exact example_filled_inv.
  - exact example_filled_inv.
  - reflexivity.
  - split; [exact Hok|].
    destruct (Hcells 4) as (x & y & Hx & Hy & Hxy); [vm_compute; lia|].
    vm_compute in Hx, Hy. injection Hx as <-. injection Hy as <-. exact Hxy.
Defined.

Lemma iadd_axes_mismatch_witness :
  (iadd example_rank1 example_filled).1 = inl InvalidArgument ∧
  (iadd example_rank1 example_filled).2 = example_filled.
Proof.
  destruct (iadd_axes_mismatch example_filled example_rank1) as (Hthrow & Hsame & _).
  - reflexivity.
  - split; [exact Hthrow | exact Hsame].
Defined.

Lemma hist_add_cells_witness :
  ∃ r : histogram integer_axis float,
    hist_add example_filled example_filled = inr r ∧
    axes_ r = example_axes ∧
    size r = 20 ∧
    storage_ r !! 4 = Some 2%float.
Proof.
  destruct (hist_add_cells (AC:=integer_axis) (CC:=float) example_filled example_filled)
    as (_ & Hok & _).
  - exact example_filled_inv.
  - exact example_filled_inv.
  - destruct Hok as (r & Hr & Haxes & Hsize & _ & Hcells); [reflexivity|].
    exists r. split; [exact Hr|]. split; [exact Haxes|]. split; [exact Hsize|].
    destruct (Hcells 4) as (x & y & Hx & Hy & Hxy); [vm_compute; lia|].
    vm_compute in Hx, Hy. injection Hx as <-. injection Hy as <-.
    rewrite Hxy. reflexivity.
Defined.

Lemma hist_add_comm_assoc_witness :
  ∃ ab bc l r : histogram integer_axis Z,
    hist_add example_filled example_signed = inr ab ∧
    hist_add ab example_histogram = inr l ∧
    hist_add example_signed example_histogram = inr bc ∧
    hist_add example_filled bc = inr r ∧
    hist_equal l r = true ∧
    storage_ l = storage_ r.
Proof.
  apply (hist_add_comm_assoc (AC:=integer_axis) (CC:=Z)
           example_filled example_signed example_histogram).
  - exact example_filled_inv.
  - split; [unfold rank; simpl; lia | reflexivity].
  - exact example_histogram_inv.
  - reflexivity.
  - reflexivity.
Defined.

Lemma at_rejects_bad_indices_witness :
  at_ example_histogram [1]%Z = inl InvalidArgument ∧
  at_ example_histogram [1; 0; 0]%Z = inl InvalidArgument ∧
  at_ example_histogram [1; 4]%Z = inl OutOfRange ∧
  at_write [-1; 0]%Z S example_histogram = (inl OutOfRange, example_histogram).
Proof.
  destruct (at_rejects_bad_indices example_histogram [1]%Z S) as [(_ & _ & H1 & _) _];
    [discriminate|].
  destruct (at_rejects_bad_indices example_histogram [1; 0; 0]%Z S) as [(_ & _ & H3 & _) _];
    [discriminate|].
  destruct (at_rejects_bad_indices example_histogram [1; 4]%Z S) as [_ Hhigh].
  destruct (at_rejects_bad_indices example_histogram [-1; 0]%Z S) as [_ Hlow].
  destruct Hhigh as (_ & _ & Hhigh & _); [reflexivity | |].
  { exists 1, (IntegerAxis 0 2), 4%Z. do 2 (split; [reflexivity|]).
    unfold total_bin_count, integer_axis_extent. simpl. lia. }
  destruct Hlow as (_ & _ & _ & Hlow); [reflexivity | |].
  { exists 0, (IntegerAxis 0 3), (-1)%Z. do 2 (split; [reflexivity|]). lia. }
  repeat split; assumption.
Defined.

Lemma reset_clears_cells_witness :
  storage_ example_filled !! 4 = Some 1 ∧
  storage_ (reset example_filled).2 !! 4 = Some 0 ∧
  size (reset example_filled).2 = 20 ∧
  axes_ (reset example_filled).2 = example_axes.
Proof.
  destruct (reset_clears_cells example_filled) as (_ & Haxes & _ & Hsize & _ & Hcells).
  split; [reflexivity|]. split; [|split; [exact Hsize | exact Haxes]].
  apply (Hcells 4). vm_compute. lia.
Defined.

(** * Further members and properties *)

(** [begin()] and [end()], lines 255-259, are the storage's own iterators:
    the range they delimit is the sequence of all cells, in storage order. *)
Definition cells {A C} (h : histogram A C) : list C := storage_ h.

(** [operator[]], lines 232-241: [at(t)]. *)
Definition subscript {A C W Smp} `{Extent A, Cell W Smp C}
    (h : histogram A C) (ids : list Z) : result C :=
  at_ h ids.

(** Fills in sequence, each on the state the previous one left; the first
    throw ends the sequence. *)
Fixpoint fill_all {V A C W Smp} `{Extent A, Index V A, Cell W Smp C}
    (calls : list fill_args) : method (histogram A C) unit :=
  match calls with
  | [] => ret tt
  | args :: calls' => (do _ <- fill args; fill_all calls')%method
  end.

(** The cells' [==] is an equivalence. *)
Class CellEqualEquiv (C : Type) `{CellEqual C C} : Prop := {
  cell_equal_equiv_refl (x : C) : cell_equal x x = true;
  cell_equal_equiv_sym (x y : C) : cell_equal x y = true → cell_equal y x = true;
  cell_equal_equiv_trans (x y z : C) :
    cell_equal x y = true → cell_equal y z = true → cell_equal x z = true;
}.

#[global] Instance count_equal_equiv : CellEqualEquiv nat.
Proof.
  split; unfold cell_equal, count_equal.
  - apply Nat.eqb_refl.
  - intros x y Hxy%Nat.eqb_eq. by apply Nat.eqb_eq.
  - intros x y z Hxy%Nat.eqb_eq Hyz%Nat.eqb_eq. apply Nat.eqb_eq. congruence.
Qed.

(** ** Indexed access that succeeds *)

Section at_success.
Context {A C W Smp : Type}.
Context `{Extent A, Cell W Smp C}.

Lemma at_ref_lt (h : histogram A C) (ids : list Z) (o : nat) :
  hist_inv h → at_ref h ids = inr o → o < size h.
Proof.
  intros [_ Hsize] Ho%at_ref_Some. rewrite Hsize.
  by apply linearize_Some_range in Ho as [_ ?].
Qed.

Lemma at_ref_in_range (h : histogram A C) (ids : list Z) :
  bins_in_range (axes_ h) ids → ∃ o, at_ref h ids = inr o.
Proof.
  intros [o Ho]%linearize_in_range. exists o. by apply at_ref_Some.
Qed.

Lemma at_of_ref (h : histogram A C) (ids : list Z) (o : nat) (c : C) :
  at_ref h ids = inr o → storage_ h !! o = Some c → at_ h ids = inr c.
Proof. intros Ho Hc. unfold at_, storage_get. by rewrite Ho, Hc. Qed.

(** X1.  On a histogram that satisfies its invariant, [at] (and
    [operator[]]) succeeds exactly on index tuples with one in-range index
    per axis, and then returns the cell stored at an offset below the size;
    it never hands out the default cell of an out-of-bounds read. *)
Theorem at_succeeds_iff_in_range (h : histogram A C) (ids : list Z) :
  hist_inv h →
  ((∃ c, at_ h ids = inr c) ↔ bins_in_range (axes_ h) ids) ∧
  (∀ c, at_ h ids = inr c →
     subscript h ids = inr c ∧
     ∃ o, at_ref h ids = inr o ∧ o < size h ∧ storage_ h !! o = Some c).
Proof.
  intros Hinv. split; [split|].
  - intros [c Hc]. unfold at_ in Hc.
    destruct (at_ref h ids) as [e|o] eqn:Ho; [done|].
    apply at_ref_Some in Ho. by apply linearize_Some_range in Ho as [? _].
  - intros [o Ho]%at_ref_in_range. unfold at_. rewrite Ho. by eexists.
  - intros c Hc. split; [done|]. unfold at_ in Hc.
    destruct (at_ref h ids) as [e|o] eqn:Ho; [done|]. exists o.
    pose proof (at_ref_lt h ids o Hinv Ho) as Hlt.
    split; [done|]. split; [done|].
    apply lookup_lt_is_Some_2 in Hlt as [c' Hc'].
    unfold storage_get in Hc. rewrite Hc' in Hc. simpl in Hc. congruence.
Qed.

(** X2.  A write through the reference [at] returns is read back by [at]
    with the same indices, every other index tuple reads (or fails) as
    before, and the axes and the size are untouched. *)
Theorem at_write_read_back (h : histogram A C) (ids : list Z) (f : C → C) (c : C) :
  hist_inv h →
  at_ h ids = inr c →
  (at_write ids f h).1 = inr tt ∧
  at_ (at_write ids f h).2 ids = inr (f c) ∧
  (∀ ids', ids' ≠ ids → at_ (at_write ids f h).2 ids' = at_ h ids') ∧
  axes_ (at_write ids f h).2 = axes_ h ∧
  size (at_write ids f h).2 = size h.
Proof.
  intros Hinv Hc. unfold at_ in Hc.
  destruct (at_ref h ids) as [e|o] eqn:Ho; [done|].
  pose proof (at_ref_lt h ids o Hinv Ho) as Hlt.
  apply lookup_lt_is_Some_2 in Hlt as [c' Hc'].
  unfold storage_get in Hc. rewrite Hc' in Hc. simpl in Hc. injection Hc as ->.
  unfold at_write. rewrite Ho. simpl. split; [done|].
  split; [|split; [|split; [done|]]].
  - rewrite at_after_cell_update, Ho, decide_True by done. by rewrite Hc'.
  - intros ids' Hne. rewrite at_after_cell_update. unfold at_.
    destruct (at_ref h ids') as [e|o'] eqn:Ho'; [done|].
    rewrite decide_False; [done|]. intros ->. apply Hne.
    apply at_ref_Some in Ho, Ho'. by eapply linearize_inj.
  - unfold size. simpl. apply length_alter.
Qed.

(** X3.  Iterating from [begin()] to [end()] visits as many cells as the
    product of the axes' total bin counts, and the cell visited at position
    [o] is the one [at] returns for the index tuple that [o] decodes to;
    conversely the cell [at] returns for an index tuple is visited at
    exactly the offset the tuple encodes. *)
Theorem iteration_visits_at_cells (h : histogram A C) :
  hist_inv h →
  length (cells h) = bincount (axes_ h) ∧
  (∀ o c, cells h !! o = Some c →
     at_ h (delinearize (axes_ h) o) = inr c) ∧
  (∀ ids c, at_ h ids = inr c →
     ∃ o, cells h !! o = Some c ∧ delinearize (axes_ h) o = ids ∧
          ∀ o', delinearize (axes_ h) o' = ids → o' < size h → o' = o).
Proof.
  intros Hinv. pose proof Hinv as [_ Hsize]. unfold cells, size in *.
  split; [done|]. split.
  - intros o c Hc. pose proof (lookup_lt_Some _ _ _ Hc) as Hlt.
    rewrite Hsize in Hlt. apply linearize_delinearize in Hlt.
    apply (at_of_ref h _ o); [by apply at_ref_Some | done].
  - intros ids c Hc. unfold at_ in Hc.
    destruct (at_ref h ids) as [e|o] eqn:Ho; [done|].
    pose proof (at_ref_lt h ids o Hinv Ho) as Hlt.
    apply at_ref_Some in Ho. exists o.
    apply lookup_lt_is_Some_2 in Hlt as [c' Hc'].
    unfold storage_get in Hc. rewrite Hc' in Hc. simpl in Hc. injection Hc as ->.
    split; [done|]. split; [by apply delinearize_linearize|].
    intros o' Hdec Hlt'. rewrite Hsize in Hlt'.
    apply linearize_delinearize in Hlt'. rewrite Hdec in Hlt'. congruence.
Qed.
End at_success.

(** ** What the members leave alone *)

Section frame.
Context {V A B C D W Smp : Type}.
Context `{Extent A, Index V A, Cell W Smp C, CellScale C}.
Context `{AxisEqual A B, CellAdd C D}.

Lemma histogram_eta (h : histogram A C) : Histogram (axes_ h) (storage_ h) = h.
Proof. by destruct h. Qed.

Lemma fill_outcome (args : fill_args) (h : histogram A C) :
  fill args h =
    if decide (length (fill_coordinates args) = rank h)
    then (inr tt,
          Histogram (axes_ h)
            match linearize 0 (axes_ h) (zip_with index (axes_ h) (fill_coordinates args)) with
            | Some o => alter (cell_update args) o (storage_ h)
            | None => storage_ h
            end)
    else (inl InvalidArgument, h).
Proof.
  unfold fill, detail_fill, rank. case_decide; [|by rewrite histogram_eta].
  by destruct (linearize _ _ _).
Qed.

(** X5.  No member function other than assignment changes the axes, the
    rank or the number of cells, whether it throws or not: [reset], fill,
    [+=], [*=], [/=] and writes through [at] only touch cell values. *)
Theorem members_keep_axes_and_size (h : histogram A C) :
  let kept (h' : histogram A C) :=
    axes_ h' = axes_ h ∧ rank h' = rank h ∧ size h' = size h in
  kept (reset h).2 ∧
  (∀ args, kept (fill args h).2) ∧
  (∀ rhs : histogram B D, kept (iadd rhs h).2) ∧
  (∀ x, kept (imul x h).2 ∧ kept (idiv x h).2) ∧
  (∀ ids f, kept (at_write ids f h).2).
Proof.
  intros kept.
  assert (∀ s, length s = length (storage_ h) → kept (Histogram (axes_ h) s)) as Hkept.
  { intros s Hs. by repeat split. }
  assert (kept h) as Hsame by done.
  split; [|split; [|split; [|split]]].
  - apply Hkept, length_replicate.
  - intros args. rewrite fill_outcome. case_decide; [|done]. simpl.
    apply Hkept. destruct (linearize _ _ _); [apply length_alter | done].
  - intros rhs. unfold iadd. destruct (negb _); [done|].
    apply Hkept, length_storage_add.
  - intros x. split; apply Hkept, length_fmap.
  - intros ids f. unfold at_write. destruct (at_ref h ids); [done|].
    apply Hkept, length_alter.
Qed.

(** X6.  [reset()] brings a histogram back to the state its constructor
    would give it for the same axes, and resetting twice is resetting
    once. *)
Theorem reset_restores_constructed_state (h : histogram A C) (s : list C) :
  hist_inv h →
  histogram_ctor (axes_ h) s = inr (reset h).2 ∧
  histogram_ctor_axes (axes_ h) = inr (reset h).2 ∧
  reset (reset h).2 = reset h.
Proof.
  intros [Hrank Hsize]. unfold histogram_ctor_axes, histogram_ctor, reset, rank, size in *.
  simpl. unfold storage_reset. rewrite length_replicate, Hsize. done.
Qed.
End frame.

(** ** Sequences of fills *)

Section fills.
Context {V A C W Smp : Type}.
Context `{Extent A, Index V A, Cell W Smp C}.

Lemma alter_commute {X} (f g : X → X) (i j : nat) (l : list X) :
  (i = j → ∀ x, f (g x) = g (f x)) →
  alter f i (alter g j l) = alter g j (alter f i l).
Proof.
  intros Hfg. apply list_eq. intros k.
  rewrite !list_lookup_alter.
  destruct (decide (i = k)) as [->|Hik], (decide (j = k)) as [->|Hjk];
    rewrite ?list_lookup_alter_eq, ?list_lookup_alter_ne by done;
    rewrite ?decide_True, ?decide_False by done; try done.
  destruct (l !! k); simpl; [|done]. f_equal. by apply Hfg.
Qed.

Definition updates_commute (a1 a2 : @fill_args V W Smp) : Prop :=
  ∀ c : C, cell_update a1 (cell_update a2 c) = cell_update a2 (cell_update a1 c).

Lemma fill_fill_commute (a1 a2 : fill_args) (h : histogram A C) :
  updates_commute a1 a2 →
  (fill a1 (fill a2 h).2).2 = (fill a2 (fill a1 h).2).2.
Proof.
  intros Hcomm. rewrite (fill_outcome a1 h), (fill_outcome a2 h).
  destruct (decide (length (fill_coordinates a1) = rank h)) as [Hl1|Hl1],
    (decide (length (fill_coordinates a2) = rank h)) as [Hl2|Hl2]; simpl;
    rewrite !fill_outcome; unfold rank in *; simpl;
    repeat first [ rewrite (decide_True _ _ Hl1) | rewrite (decide_True _ _ Hl2)
                 | rewrite (decide_False _ _ Hl1) | rewrite (decide_False _ _ Hl2) ];
    simpl; try done.
  destruct (linearize 0 (axes_ h) (zip_with index (axes_ h) (fill_coordinates a1))),
    (linearize 0 (axes_ h) (zip_with index (axes_ h) (fill_coordinates a2)));
    try done.
  f_equal. apply alter_commute. intros _ c. apply Hcomm.
Qed.

Lemma fill_rank (args : fill_args) (h : histogram A C) :
  rank (fill args h).2 = rank h.
Proof. rewrite fill_outcome. by case_decide. Qed.

Lemma fill_all_outcome (calls : list fill_args) (h : histogram A C) :
  Forall (λ args, length (fill_coordinates args) = rank h) calls →
  fill_all calls h = (inr tt, foldl (λ h' args, (fill args h').2) h calls).
Proof.
  revert h. induction calls as [|args calls IH]; intros h Hall; [done|].
  apply Forall_cons in Hall as [Hargs Hall]. simpl. unfold bind.
  rewrite (fill_outcome args h), (decide_True _ _ Hargs). simpl.
  apply IH. eapply Forall_impl; [done|]. by intros a Ha.
Qed.

Lemma foldl_fill_permutation (calls calls' : list fill_args) :
  calls ≡ₚ calls' →
  (∀ a1 a2, a1 ∈ calls → a2 ∈ calls → updates_commute a1 a2) →
  ∀ h : histogram A C,
    foldl (λ h' args, (fill args h').2) h calls =
    foldl (λ h' args, (fill args h').2) h calls'.
Proof.
  induction 1 as [|x l l' Hperm IH|x y l|l l' l'' Hperm IH Hperm' IH'];
    intros Hcomm h; simpl.
  - done.
  - apply IH. intros a1 a2 Ha1 Ha2. apply Hcomm; by apply elem_of_cons; right.
  - f_equal. apply fill_fill_commute, Hcomm.
    + apply elem_of_cons. right. apply elem_of_cons. by left.
    + apply elem_of_cons. by left.
  - rewrite IH by done. apply IH'.
    intros a1 a2 Ha1 Ha2. apply Hcomm; by rewrite Hperm.
Qed.

(** X8.  The order of fills does not matter: when every call has as many
    coordinates as the histogram has axes and the cell updates of the calls
    commute with each other (as plain fills always do), the calls in any
    other order all succeed too and leave the same histogram. *)
Theorem fills_in_any_order (calls calls' : list fill_args) (h : histogram A C) :
  calls ≡ₚ calls' →
  Forall (λ args, length (fill_coordinates args) = rank h) calls →
  (∀ a1 a2, a1 ∈ calls → a2 ∈ calls → updates_commute a1 a2) →
  (fill_all calls h).1 = inr tt ∧
  fill_all calls' h = fill_all calls h.
Proof.
  intros Hperm Hall Hcomm.
  assert (Forall (λ args, length (fill_coordinates args) = rank h) calls') as Hall'
    by (by rewrite <- Hperm).
  rewrite !fill_all_outcome by done. split; [done|].
  f_equal. symmetry. by apply foldl_fill_permutation.
Qed.

Lemma fill_all_replicate `{!AxisContract V A}
    (n : nat) (args : fill_args) (axes : list A) (o : nat) (s : list C) :
  length (fill_coordinates args) = length axes →
  linearize 0 axes (zip_with index axes (fill_coordinates args)) = Some o →
  fill_all (replicate n args) (Histogram axes s) =
    (inr tt, Histogram axes (alter (Nat.iter n (cell_update args)) o s)).
Proof.
  intros Hlen Ho. revert s. induction n as [|n IH]; intros s.
  - simpl. unfold ret. by rewrite list_alter_id.
  - cbn [replicate fill_all]. unfold bind. rewrite fill_outcome.
    unfold rank. simpl. rewrite (decide_True _ _ Hlen), Ho, IH. f_equal. f_equal.
    apply list_eq. intros k. destruct (decide (o = k)) as [->|Hne].
    + rewrite !list_lookup_alter_eq. destruct (s !! k) as [c|]; [|done].
      cbn [fmap option_fmap option_map]. f_equal. symmetry.
      exact (Nat.iter_succ_r n (cell_update args) c).
    + by rewrite !list_lookup_alter_ne.
Qed.

(** X9.  After [n] fills with the same arguments on a histogram that
    satisfies its invariant, all [n] calls have succeeded, the addressed
    cell has been updated [n] times and every other cell is as it was. *)
Theorem repeated_fill_accumulates `{!AxisContract V A}
    (h : histogram A C) (args : fill_args) (n : nat) :
  hist_inv h →
  length (fill_coordinates args) = rank h →
  let ids := zip_with index (axes_ h) (fill_coordinates args) in
  let h' := (fill_all (replicate n args) h).2 in
  (fill_all (replicate n args) h).1 = inr tt ∧
  ∃ o c, at_ref h ids = inr o ∧ at_ h ids = inr c ∧
         at_ h' ids = inr (Nat.iter n (cell_update args) c) ∧
         (∀ o', o' ≠ o → storage_ h' !! o' = storage_ h !! o').
Proof.
  intros [_ Hsize] Hlen ids h'.
  destruct (fill_spec h args Hlen) as (o & Hat & Ho & _). fold ids in Hat.
  pose proof Hat as Hlin%at_ref_Some.
  assert (fill_all (replicate n args) h =
          (inr tt, Histogram (axes_ h)
                     (alter (Nat.iter n (cell_update args)) o (storage_ h)))) as Hall.
  { rewrite <- (fill_all_replicate n args _ o _ Hlen Hlin). by rewrite histogram_eta. }
  subst h'. rewrite Hall. simpl. split; [done|].
  unfold size in Hsize. rewrite <- Hsize in Ho.
  apply lookup_lt_is_Some_2 in Ho as [c Hc]. exists o, c.
  split; [done|]. split; [by apply (at_of_ref h ids o)|]. split.
  - rewrite at_after_cell_update, Hat, decide_True by done. by rewrite Hc.
  - intros o' Hne. by apply list_lookup_alter_ne.
Qed.

(** X10.  A fill with a weight marker, a sample marker or both updates the
    addressed cell with the matching cell operation (weighted, sampled, or
    both forwarded together) and, like a plain fill, leaves every other
    index tuple's cell as it was. *)
Theorem annotated_fill_updates_cell `{!AxisContract V A}
    (h : histogram A C) (args : fill_args) :
  hist_inv h →
  length (fill_coordinates args) = rank h →
  let ids := zip_with index (axes_ h) (fill_coordinates args) in
  let h' := (fill args h).2 in
  (fill args h).1 = inr tt ∧
  (∃ c, at_ h ids = inr c ∧
        at_ h' ids =
          inr match fill_weight args, fill_sample args with
              | None, None => cell_observe c
              | Some w, None => cell_observe_weight w c
              | None, Some s => cell_observe_sample s c
              | Some w, Some s => cell_observe_weight_sample w s c
              end) ∧
  (∀ ids', ids' ≠ ids → at_ h' ids' = at_ h ids').
Proof.
  intros [_ Hsize] Hlen ids h'.
  destruct (fill_spec h args Hlen) as (o & Hat & Ho & Hfill). fold ids in Hat.
  subst h'. rewrite Hfill. simpl. split; [done|].
  unfold size in Hsize. rewrite <- Hsize in Ho.
  apply lookup_lt_is_Some_2 in Ho as [c Hc]. split.
  - exists c. split; [by apply (at_of_ref h ids o)|].
    rewrite at_after_cell_update, Hat, decide_True by done. rewrite Hc. simpl.
    unfold cell_update. by destruct (fill_weight args), (fill_sample args).
  - intros ids' Hne. rewrite at_after_cell_update. unfold at_.
    destruct (at_ref h ids') as [e|o'] eqn:Hat'; [done|].
    rewrite decide_False; [done|]. intros ->. apply Hne.
    apply at_ref_Some in Hat, Hat'. by eapply linearize_inj.
Qed.
End fills.

(** ** Equality *)

Section equality.
Context {A B C D : Type}.
Context `{AxisEqual A B, CellEqual C D}.

Lemma axes_equal_pairwise (xs : list A) (ys : list B) :
  axes_equal xs ys = true ↔
  length xs = length ys ∧
  ∀ i x y, xs !! i = Some x → ys !! i = Some y → axis_equal x y = true.
Proof.
  revert ys. induction xs as [|x xs IH]; intros [|y ys]; simpl.
  - split; [|done]. intros _. split; [done|]. by intros [|i].
  - split; [done|]. by intros [? _].
  - split; [done|]. by intros [? _].
  - rewrite andb_true_iff, IH. split.
    + intros [Hxy [Hlen Hrest]]. split; [by f_equal|].
      intros [|i] x' y'; simpl; [by intros [= <-] [= <-] | apply Hrest].
    + intros [[= Hlen] Hall]. split; [by apply (Hall 0)|]. split; [done|].
      intros i. apply (Hall (S i)).
Qed.

Lemma storage_equal_pairwise (s : list C) (r : list D) :
  storage_equal s r = true ↔
  length s = length r ∧
  ∀ o x y, s !! o = Some x → r !! o = Some y → cell_equal x y = true.
Proof.
  revert r. induction s as [|x s IH]; intros [|y r]; simpl.
  - split; [|done]. intros _. split; [done|]. by intros [|o].
  - split; [done|]. by intros [? _].
  - split; [done|]. by intros [? _].
  - rewrite andb_true_iff, IH. split.
    + intros [Hxy [Hlen Hrest]]. split; [by f_equal|].
      intros [|o] x' y'; simpl; [by intros [= <-] [= <-] | apply Hrest].
    + intros [[= Hlen] Hall]. split; [by apply (Hall 0)|]. split; [done|].
      intros o. apply (Hall (S o)).
Qed.

(** X11.  [a == b] holds exactly when the histograms have the same rank and
    the same number of cells, every axis of [a] equals the axis of [b] in
    the same position and every cell of [a] equals the cell of [b] at the
    same offset; [a != b] is its negation.  Histograms of different shape
    never compare equal. *)
Theorem hist_equal_iff_same_shape_and_cells (a : histogram A C) (b : histogram B D) :
  (hist_equal a b = true ↔
     rank a = rank b ∧ size a = size b ∧
     (∀ i x y, axes_ a !! i = Some x → axes_ b !! i = Some y → axis_equal x y = true) ∧
     (∀ o x y, storage_ a !! o = Some x → storage_ b !! o = Some y →
               cell_equal x y = true)) ∧
  hist_not_equal a b = negb (hist_equal a b) ∧
  (rank a ≠ rank b ∨ size a ≠ size b → hist_equal a b = false).
Proof.
  assert (hist_equal a b = true ↔
     rank a = rank b ∧ size a = size b ∧
     (∀ i x y, axes_ a !! i = Some x → axes_ b !! i = Some y → axis_equal x y = true) ∧
     (∀ o x y, storage_ a !! o = Some x → storage_ b !! o = Some y →
               cell_equal x y = true)) as Hiff.
  { unfold hist_equal, rank, size.
    rewrite andb_true_iff, axes_equal_pairwise, storage_equal_pairwise.
    split; [intros [[? ?] [? ?]] | intros (? & ? & ? & ?)]; done. }
  split; [done|]. split; [done|].
  intros Hshape. destruct (hist_equal a b); [|done].
  destruct Hiff as [Hiff _]. destruct (Hiff eq_refl) as (Hrank & Hsize & _).
  by destruct Hshape.
Qed.
End equality.

Section equality_equivalence.
Context {A C : Type}.
Context `{AxisEqual A A, CellEqual C C, !AxisEqualEquiv A, !CellEqualEquiv C}.

Lemma storage_equal_sym (s r : list C) :
  storage_equal s r = true → storage_equal r s = true.
Proof.
  revert r. induction s as [|x s IH]; intros [|y r]; simpl; try done.
  intros [Hxy Hrest]%andb_true_iff.
  by rewrite (cell_equal_equiv_sym _ _ Hxy), (IH _ Hrest).
Qed.

Lemma storage_equal_trans (s r t : list C) :
  storage_equal s r = true → storage_equal r t = true → storage_equal s t = true.
Proof.
  revert r t. induction s as [|x s IH]; intros [|y r] [|z t]; simpl; try done.
  intros [Hxy Hsr]%andb_true_iff [Hyz Hrt]%andb_true_iff.
  by rewrite (cell_equal_equiv_trans _ _ _ Hxy Hyz), (IH _ _ Hsr Hrt).
Qed.

Lemma storage_equal_reflexive (s : list C) : storage_equal s s = true.
Proof.
  induction s as [|x s IH]; [done|]. simpl. by rewrite cell_equal_equiv_refl, IH.
Qed.

(** X12.  When the axes' and the cells' own [==] are equivalences, so is
    [==] on histograms: every histogram equals itself and its copies, and
    [==] is symmetric and transitive. *)
Theorem hist_equal_equivalence (a b c : histogram A C) :
  hist_equal a a = true ∧
  hist_equal (histogram_convert a : histogram A C) a = true ∧
  (hist_equal a b = true → hist_equal b a = true) ∧
  (hist_equal a b = true → hist_equal b c = true → hist_equal a c = true).
Proof.
  unfold hist_equal. rewrite histogram_convert_id.
  rewrite axes_equal_refl, storage_equal_reflexive.
  split; [done|]. split; [done|]. split.
  - intros [Hax Hst]%andb_true_iff.
    by rewrite (axes_equal_sym _ _ Hax), (storage_equal_sym _ _ Hst).
  - intros [Hax Hst]%andb_true_iff [Hax' Hst']%andb_true_iff.
    by rewrite (axes_equal_trans _ _ _ Hax Hax'), (storage_equal_trans _ _ _ Hst Hst').
Qed.
End equality_equivalence.

(** ** Converting construction and assignment *)

Section conversion.
Context {A B C D : Type}.
Context `{Extent A, Extent B, Convert B A, Convert D C}.
Context `{AxisEqual A B, AxisEqual A A, CellAdd C D}.
Context `{!AxisEqualConvert B A, !AxisEqualEquiv A}.

Lemma axes_equal_assigned (xs : list B) :
  axes_equal (axes_assign xs : list A) xs = true.
Proof. rewrite axes_equal_convert. apply axes_equal_refl. Qed.

(** X13.  Converting assignment replaces the target wholesale: whatever it
    held, it ends with the rank and size of the source, with the converted
    axes, and with the converted source cell at every offset.  With a
    lossless axis conversion the assigned histogram can at once accumulate
    its source: [h = rhs; h += rhs] never throws. *)
Theorem assign_replaces_and_accumulates (rhs : histogram B D) (h : histogram A C) :
  (assign rhs h).1 = inr tt ∧
  (∀ h0 : histogram A C, (assign rhs h0).2 = (assign rhs h).2) ∧
  (assign rhs h).2 = histogram_convert rhs ∧
  rank (assign rhs h).2 = rank rhs ∧
  size (assign rhs h).2 = size rhs ∧
  axes_ (assign rhs h).2 = convert <$> axes_ rhs ∧
  (∀ o, storage_ (assign rhs h).2 !! o = convert <$> storage_ rhs !! o) ∧
  (do _ <- assign rhs; iadd rhs)%method h =
    (inr tt, Histogram (convert <$> axes_ rhs)
               (storage_add (convert <$> storage_ rhs) (storage_ rhs))).
Proof.
  unfold assign, bind, histogram_convert, rank, size. simpl.
  unfold axes_assign. rewrite !length_fmap.
  repeat (split; [done|]). split.
  - intros o. apply list_lookup_fmap.
  - unfold iadd. simpl. pose proof (axes_equal_assigned (axes_ rhs)) as Heq.
    unfold axes_assign in Heq. by rewrite Heq.
Qed.
End conversion.

(** ** Scaling operators *)

Section scaling_operators.
Context {A C CS : Type}.
Context `{Convert C CS, CellScale CS, CellScale C}.

(** X14.  [h * x], [x * h] and [h / x] build a new histogram over the axes
    of [h] with as many cells, each the cell of [h] converted to the
    promoted cell type and scaled by [x] (by [1.0 / x] for the division);
    the members [*=] and [/=] scale every cell in place, so scaling by [x]
    and then by [y] scales each cell twice, in that order. *)
Theorem scaling_scales_every_cell (h : histogram A C) (x y : float) :
  axes_ (hist_mul h x : histogram A CS) = axes_ h ∧
  size (hist_mul h x : histogram A CS) = size h ∧
  (∀ o, storage_ (hist_mul h x : histogram A CS) !! o =
          cell_scale x ∘ convert <$> storage_ h !! o) ∧
  hist_mul_left x h = (hist_mul h x : histogram A CS) ∧
  (∀ o, storage_ (hist_div h x : histogram A CS) !! o =
          cell_scale (1 / x)%float ∘ convert <$> storage_ h !! o) ∧
  (∀ o, storage_ (imul x h).2 !! o = cell_scale x <$> storage_ h !! o) ∧
  (∀ o, storage_ (idiv x h).2 !! o = cell_scale (1 / x)%float <$> storage_ h !! o) ∧
  (∀ o, storage_ ((do _ <- imul x; imul y)%method h).2 !! o =
          cell_scale y ∘ cell_scale x <$> storage_ h !! o).
Proof.
  destruct (hist_mul_cells (CS:=CS) h x) as (Haxes & Hsize & Hcells).
  split; [done|]. split; [done|]. split; [done|]. split; [done|]. split.
  { intros o. unfold hist_div.
    by destruct (hist_mul_cells (CS:=CS) h (1 / x)%float) as (_ & _ & ->). }
  unfold idiv, imul, bind, storage_scale. simpl.
  split; [|split]; intros o; rewrite ?list_lookup_fmap; try done.
  by destruct (storage_ h !! o).
Qed.
End scaling_operators.

(** ** The overloads of binary [+] *)

Section add_overloads.
Context {A C : Type}.
Context `{AxisEqual A A, CellAdd C C}.

(** X15.  On operands of one type the three overloads of [+] differ only in
    which operand is accumulated into which: with an expiring left operand
    the result is that of the general overload, with an expiring right
    operand it is that of the general overload on the swapped operands, so
    it carries the axes of [b] and cells [cell_b += cell_a]; each overload
    throws exactly when the axes differ. *)
Theorem add_overloads_agree (a b : histogram A C) :
  hist_add_rvalue_lhs a b = hist_add a b ∧
  hist_add_rvalue_rhs a b = hist_add b a ∧
  (axes_equal (axes_ a) (axes_ b) = true →
     hist_add a b = inr (Histogram (axes_ a) (storage_add (storage_ a) (storage_ b)))) ∧
  (axes_equal (axes_ b) (axes_ a) = true →
     hist_add_rvalue_rhs a b =
       inr (Histogram (axes_ b) (storage_add (storage_ b) (storage_ a)))) ∧
  (axes_equal (axes_ a) (axes_ b) = false → hist_add a b = inl InvalidArgument) ∧
  (axes_equal (axes_ b) (axes_ a) = false →
     hist_add_rvalue_rhs a b = inl InvalidArgument).
Proof.
  unfold hist_add_rvalue_lhs, hist_add_rvalue_rhs, hist_add.
  rewrite !histogram_convert_id. unfold returning, iadd.
  repeat split; try done; intros Heq; by rewrite Heq.
Qed.
End add_overloads.

(** ** Merging histograms *)

Section merging.
Context {V A B C D W Smp : Type}.
Context `{Extent A, Index V A, Cell W Smp C, Cell W Smp D}.
Context `{AxisEqual A B, CellAdd C D}.

Lemma storage_add_alter (f : C → C) (o : nat) (s : list C) (r : list D) :
  (∀ x y, cell_add (f x) y = f (cell_add x y)) →
  storage_add (alter f o s) r = alter f o (storage_add s r).
Proof.
  intros Hf. apply list_eq. intros k.
  destruct (decide (o = k)) as [->|Hk].
  - rewrite lookup_storage_add, !list_lookup_alter_eq, lookup_storage_add.
    destruct (s !! k) as [x|], (r !! k) as [y|]; simpl; try done.
    by rewrite Hf.
  - by rewrite lookup_storage_add, !list_lookup_alter_ne, lookup_storage_add.
Qed.

Lemma storage_add_default (s : list C) (n : nat) :
  (∀ x : C, cell_add x (cell_default : D) = x) →
  storage_add s (storage_reset n : list D) = s.
Proof.
  intros Hd. revert n. induction s as [|x s IH]; intros [|n]; simpl; try done.
  unfold storage_reset in IH. by rewrite Hd, IH.
Qed.

(** X16.  Filling and merging commute: when accumulating a cell commutes
    with the cell update of the fill (as it does for counts), filling [a]
    and then adding [b] leaves the same histogram as adding [b] and then
    filling, given equal axes and the right number of coordinates.  This is
    what makes filling separate histograms and merging them equivalent to
    filling one. *)
Theorem fill_then_merge_is_merge_then_fill
    (a : histogram A C) (b : histogram B D) (args : fill_args) :
  axes_equal (axes_ a) (axes_ b) = true →
  length (fill_coordinates args) = rank a →
  (∀ x y, cell_add (cell_update args x) y = cell_update args (cell_add x y)) →
  (do _ <- fill args; iadd b)%method a = (do _ <- iadd b; fill args)%method a ∧
  ((do _ <- fill args; iadd b)%method a).1 = inr tt.
Proof.
  intros Heq Hlen Hcomm. unfold bind.
  rewrite (fill_outcome args a), (decide_True _ _ Hlen).
  rewrite (iadd_equal_axes a b Heq), fill_outcome. unfold rank in *. simpl.
  rewrite (decide_True _ _ Hlen). unfold iadd. simpl. rewrite Heq. simpl.
  split; [|done]. f_equal. f_equal.
  destruct (linearize _ _ _); [|done]. by apply storage_add_alter.
Qed.

(** X17.  Merging in a freshly reset histogram with equal axes changes
    nothing when a default cell is neutral for the cells' addition. *)
Theorem merging_reset_histogram_is_identity (a : histogram A C) (b : histogram B D) :
  axes_equal (axes_ a) (axes_ b) = true →
  (∀ x : C, cell_add x (cell_default : D) = x) →
  iadd (reset b).2 a = (inr tt, a).
Proof.
  intros Heq Hd. unfold iadd, reset. simpl. rewrite Heq. simpl.
  by rewrite storage_add_default, histogram_eta.
Qed.
End merging.

(** ** The further theorems on the example histograms *)

Definition plain_fill (coords : list Z) : @fill_args Z nat unit :=
  FillArgs None None coords.

Definition weighted_fill (w : nat) (coords : list Z) : @fill_args Z nat unit :=
  FillArgs (Some w) None coords.

Lemma count_updates_commute (a1 a2 : @fill_args Z nat unit) :
  updates_commute (C:=nat) a1 a2.
Proof.
  intros c. unfold cell_update.
  destruct (fill_weight a1), (fill_sample a1), (fill_weight a2), (fill_sample a2);
    simpl; lia.
Qed.

Lemma at_succeeds_iff_in_range_witness :
  (∃ c, at_ example_filled [1; 0]%Z = inr c) ∧
  ¬ (∃ c, at_ example_filled [1; 4]%Z = inr c).
Proof.
  destruct (at_succeeds_iff_in_range example_filled [1; 0]%Z example_filled_inv)
    as [[_ Hin] _].
  destruct (at_succeeds_iff_in_range example_filled [1; 4]%Z example_filled_inv)
    as [[Hout _] _].
  split.
  - apply Hin. repeat constructor; unfold total_bin_count, integer_axis_extent; simpl; lia.
  - intros Hc. apply Hout in Hc.
    apply Forall2_cons in Hc as [_ Hc]. apply Forall2_cons in Hc as [Hc _].
    unfold total_bin_count, integer_axis_extent in Hc. simpl in Hc. lia.
Defined.

Lemma at_write_read_back_witness :
  at_ (at_write [1; 0]%Z (Nat.add 6) example_filled).2 [1; 0]%Z = inr 7 ∧
  at_ (at_write [1; 0]%Z (Nat.add 6) example_filled).2 [0; 0]%Z = inr 0.
Proof.
  destruct (at_write_read_back example_filled [1; 0]%Z (Nat.add 6) 1)
    as (_ & Hsame & Hother & _).
  - exact example_filled_inv.
  - reflexivity.
  - split; [exact Hsame|]. rewrite Hother; [reflexivity | discriminate].
Defined.

Lemma iteration_visits_at_cells_witness :
  length (cells example_filled) = 20 ∧
  at_ example_filled (delinearize example_axes 4) = inr 1.
Proof.
  destruct (iteration_visits_at_cells example_filled example_filled_inv)
    as (Hlen & Hvisit & _).
  split; [exact Hlen|]. apply (Hvisit 4 1). reflexivity.
Defined.

Lemma reset_restores_constructed_state_witness :
  histogram_ctor_axes example_axes = inr (reset example_filled).2.
Proof.
  apply (reset_restores_constructed_state example_filled []).
  exact example_filled_inv.
Defined.

Lemma fills_in_any_order_witness :
  fill_all [plain_fill [2; 1]%Z; weighted_fill 3 [1; 0]%Z; plain_fill [1; 0]%Z]
    example_histogram =
  fill_all [weighted_fill 3 [1; 0]%Z; plain_fill [2; 1]%Z; plain_fill [1; 0]%Z]
    example_histogram.
Proof.
  apply (fills_in_any_order
           [weighted_fill 3 [1; 0]%Z; plain_fill [2; 1]%Z; plain_fill [1; 0]%Z]
           [plain_fill [2; 1]%Z; weighted_fill 3 [1; 0]%Z; plain_fill [1; 0]%Z]
           example_histogram).
  - apply perm_swap.
  - repeat constructor.
  - intros a1 a2 _ _. apply count_updates_commute.
Defined.

Lemma repeated_fill_accumulates_witness :
  at_ (fill_all (replicate 3 (plain_fill [1; 0]%Z)) example_histogram).2 [1; 0]%Z =
    inr 3.
Proof.
  destruct (repeated_fill_accumulates example_histogram (plain_fill [1; 0]%Z) 3)
    as (_ & o & c & _ & Hc & Hat & _).
  - exact example_histogram_inv.
  - reflexivity.
  - vm_compute in Hc. injection Hc as <-. exact Hat.
Defined.

Lemma annotated_fill_updates_cell_witness :
  at_ (fill (weighted_fill 5 [1; 0]%Z) example_filled).2 [1; 0]%Z = inr 6.
Proof.
  destruct (annotated_fill_updates_cell example_filled (weighted_fill 5 [1; 0]%Z))
    as (_ & (c & Hc & Hat) & _).
  - exact example_filled_inv.
  - reflexivity.
  - vm_compute in Hc. injection Hc as <-. exact Hat.
Defined.

Lemma hist_equal_equivalence_witness :
  hist_equal example_filled example_filled = true ∧
  (hist_equal example_filled example_histogram = true →
   hist_equal example_histogram example_filled = true).
Proof.
  destruct (hist_equal_equivalence example_filled example_histogram example_filled)
    as (Hrefl & _ & Hsym & _).
  split; [exact Hrefl | exact Hsym].
Defined.

Lemma assign_replaces_and_accumulates_witness :
  (assign example_filled example_signed).1 = inr tt ∧
  size (assign example_filled example_signed).2 = 20 ∧
  ((do _ <- assign example_filled; iadd example_filled)%method example_signed).1 =
    inr tt.
Proof.
  destruct (assign_replaces_and_accumulates example_filled example_signed)
    as (Hok & _ & _ & _ & Hsize & _ & _ & Hadd).
  split; [exact Hok|]. split; [exact Hsize|]. by rewrite Hadd.
Defined.

Lemma fill_then_merge_is_merge_then_fill_witness :
  (do _ <- fill (plain_fill [2; 1]%Z); iadd example_filled)%method example_histogram =
  (do _ <- iadd example_filled; fill (plain_fill [2; 1]%Z))%method example_histogram.
Proof.
  apply (fill_then_merge_is_merge_then_fill
           example_histogram example_filled (plain_fill [2; 1]%Z)).
  - reflexivity.
  - reflexivity.
  - intros x y. reflexivity.
Defined.

Lemma merging_reset_histogram_is_identity_witness :
  iadd (reset example_filled).2 example_filled = (inr tt, example_filled).
Proof.
  apply (merging_reset_histogram_is_identity example_filled example_filled).
  - reflexivity.
  - intros x. unfold cell_add, count_add. simpl. lia.
Defined.
